(** * browser_cleanup.py: the classification-and-termination sweep

    A shallow embedding of [BrowserProcessKiller.kill_browser_processes_only]
    and [main] of [src/browser_cleanup.py], and the properties of the
    specification that are about them.

    Modelling choices.
    - A Python [str] is a [string]: a sequence of 8-bit characters.
      [str.lower] maps the letters [A]..[Z] to [a]..[z] and leaves every other
      character alone.  The tokens the script searches for are ASCII words.
    - A process record holds what the script reads of [proc.info]: the pid,
      the name and the argument vector.  [psutil] puts [None] in [proc.info]
      for a field it could not read (access denied, zombie), so the name and
      the argument vector are options.  The script allows for it in the
      argument vector ([proc.info['cmdline'] or []]) and not in the name: it
      calls [proc_name.lower()], which raises [AttributeError] on [None].
    - The operating system is an oracle carried by each process record: what
      [proc.kill()] and [proc.wait(timeout=5)] do when they are called on it
      (return, or raise an exception).
    - Effects are threaded through a state-and-exception monad.  The state is
      the trace of what the script did to the outside world: the lines it
      printed and the calls it made on process objects, in program order.
      An exception leaves the trace as it was when it was raised. *)

From Stdlib Require Import List Bool ZArith Lia Ascii String.
From Stdlib Require Import Permutation.
Import ListNotations.

Local Open Scope string_scope.
Local Open Scope Z_scope.

(** ** Strings as Python uses them *)

Module Str.

(** [c.lower()] for one character: ['A'..'Z'] (65..90) move up by 32. *)
Definition lower_ascii (c : ascii) : ascii :=
  let n := N_of_ascii c in
  if ((65 <=? n) && (n <=? 90))%N then ascii_of_N (n + 32) else c.

(** [s.lower()] *)
Fixpoint lower (s : string) : string :=
  match s with
  | EmptyString => EmptyString
  | String c s' => String (lower_ascii c) (lower s')
  end.

(** [s.startswith(sub)] *)
Fixpoint startswith (sub s : string) : bool :=
  match sub, s with
  | EmptyString, _ => true
  | String _ _, EmptyString => false
  | String a sub', String b s' => Ascii.eqb a b && startswith sub' s'
  end.

(** [sub in s]: [sub] occurs in [s] at some position. *)
Fixpoint contains (sub s : string) : bool :=
  startswith sub s ||
  match s with
  | EmptyString => false
  | String _ s' => contains sub s'
  end.

(** [sep.join(parts)] *)
Fixpoint join (sep : string) (parts : list string) : string :=
  match parts with
  | [] => EmptyString
  | [x] => x
  | x :: rest => x ++ sep ++ join sep rest
  end.

(** The same tests without regard to case, to compare with: [sub] occurs in
    [s] when both are lower-cased. *)
Definition contains_nocase (sub s : string) : bool :=
  contains (lower sub) (lower s).

End Str.

Notation "sub 'in_' s" := (Str.contains sub s) (at level 70, no associativity).

(** ** Process records and classification *)

(** The exceptions the script distinguishes.  [psutil.ZombieProcess] is a
    subclass of [psutil.NoSuchProcess]; the first three are caught by one
    [except] clause.  [KeyboardInterrupt] is not an [Exception]; every other
    error is [OtherException], which is. *)
Inductive exn : Type :=
| NoSuchProcess
| AccessDenied
| ZombieProcess
| TimeoutExpired
| KeyboardInterrupt
| OtherException (msg : string).

(** What [None.lower()] raises (line 39): an [Exception] that no [except]
    clause of the sweep names. *)
Definition AttributeError : exn :=
  OtherException "'NoneType' object has no attribute 'lower'".

(** What a computation comes to: it returns a value or raises. *)
Inductive Result (A : Type) : Type :=
| Return (a : A)
| Raise (e : exn).
Arguments Return {A} a.
Arguments Raise {A} e.

(** What [psutil.process_iter(['pid', 'name', 'cmdline'])] yields for one
    process, [proc.info], together with what the operating system does when
    the script calls [proc.kill()] and [proc.wait(timeout=5)] on it:
    [None] when the call returns, [Some e] when it raises [e].  The name and
    the argument vector are [None] when [psutil] could not read them. *)
Record Process : Type := mkProcess {
  pid : Z;
  name : option string;
  cmdline : option (list string);
  kill_raises : option exn;
  wait_raises : option exn
}.

(** [' '.join(proc.info['cmdline'] or [])] (line 35) *)
Definition cmdline_text (argv : option (list string)) : string :=
  Str.join " " (match argv with
                | None => []
                | Some [] => []
                | Some l => l
                end).

(** Lines 38-41. *)
Definition is_playwright_chrome (proc_name cmdline : string) : bool :=
  (("chrome" in_ Str.lower proc_name) || ("Google Chrome" in_ proc_name))
  && ("mcp-chrome-profile" in_ cmdline).

(** Lines 44-47. *)
Definition is_nodejs_server (proc_name cmdline : string) : bool :=
  ("node" in_ Str.lower proc_name)
  && (("mcp-server-playwright" in_ cmdline) || ("playwright" in_ cmdline)).

(** The outcome of the test of line 49: the process is killed or it is not. *)
Inductive Classification : Type :=
| Target
| Ignored.

(** Line 49: [if is_playwright_chrome and not is_nodejs_server]. *)
Definition classify (proc_name cmdline : string) : Classification :=
  if is_playwright_chrome proc_name cmdline
     && negb (is_nodejs_server proc_name cmdline)
  then Target else Ignored.

(** Lines 34-49 on a process record: without a name, line 39 raises. *)
Definition classification (p : Process) : Result Classification :=
  match name p with
  | None => Raise AttributeError
  | Some proc_name => Return (classify proc_name (cmdline_text (cmdline p)))
  end.

Definition is_target (p : Process) : bool :=
  match classification p with
  | Return Target => true
  | Return Ignored | Raise _ => false
  end.

(** The three categories of the specification: a process is a target, or it
    is ignored because the server test vetoes the browser test, or it is
    ignored because the browser test itself fails. *)
Inductive Category : Type :=
| CatTarget
| CatProtectedVetoedIgnored
| CatIgnored.

Definition category (p : Process) : Result Category :=
  let c := cmdline_text (cmdline p) in
  match name p with
  | None => Raise AttributeError
  | Some n =>
      Return (if is_playwright_chrome n c
              then if is_nodejs_server n c
                   then CatProtectedVetoedIgnored else CatTarget
              else CatIgnored)
  end.

Definition final (c : Category) : Classification :=
  match c with
  | CatTarget => Target
  | CatProtectedVetoedIgnored | CatIgnored => Ignored
  end.

(** ** Effects: a state-and-exception monad *)

(** What the script prints, one constructor per [print] call of the source
    (the texts are fixed; only the interpolated values are kept). *)
Inductive Line : Type :=
| KillingLine (proc_name : string) (pid : Z)  (* line 51 *)
| TimeoutLine (pid : Z)                       (* line 63 *)
| SummaryLine (killed_count : Z)              (* line 66 *)
| SuccessLine (killed_count : Z)              (* line 82 *)
| PreservedLine                               (* line 83 *)
| NoneFoundLine                               (* line 86 *)
| InterruptedLine                             (* line 90 *)
| FailedLine (e : exn).                       (* line 93 *)

(** What the script does to the outside world. [Kill p r] is a call
    [p.kill()] and what came of it; a termination signal was sent when [r] is
    [None]. *)
Inductive Event : Type :=
| Print (l : Line)
| Kill (p : Process) (r : option exn)
| Wait (p : Process) (r : option exn).

Record State : Type := mkState {
  killed_count : Z;
  trace : list Event
}.

Definition M (A : Type) : Type := State -> Result A * State.

Definition ret {A} (a : A) : M A := fun s => (Return a, s).

Definition raise {A} (e : exn) : M A := fun s => (Raise e, s).

Definition bind {A B} (m : M A) (k : A -> M B) : M B :=
  fun s =>
    match m s with
    | (Return a, s') => k a s'
    | (Raise e, s') => (Raise e, s')
    end.

(** [try: m  except ... as e: h e] *)
Definition try_except {A} (m : M A) (h : exn -> M A) : M A :=
  fun s =>
    match m s with
    | (Return a, s') => (Return a, s')
    | (Raise e, s') => h e s'
    end.

Declare Scope monad_scope.
Delimit Scope monad_scope with monad.
Notation "x <- m ;; k" := (bind m (fun x => k))
  (at level 61, m at next level, right associativity) : monad_scope.
Notation "m ;; k" := (bind m (fun _ => k))
  (at level 61, right associativity) : monad_scope.
Local Open Scope monad_scope.

Definition emit (e : Event) : M unit :=
  fun s => (Return tt, mkState (killed_count s) (trace s ++ [e])%list).

(** Reading and writing the local variable [killed_count]. *)
Definition get_count : M Z := fun s => (Return (killed_count s), s).

Definition set_count (n : Z) : M unit :=
  fun s => (Return tt, mkState n (trace s)).

Definition print (l : Line) : M unit := emit (Print l).

(** [if b: m] *)
Definition when (b : bool) (m : M unit) : M unit :=
  if b then m else ret tt.

(** A call of a method of a process object: the call is recorded, and it
    returns or raises as the operating system decides. *)
Definition os_call (ev : option exn -> Event) (r : option exn) : M unit :=
  emit (ev r) ;;
  match r with
  | None => ret tt
  | Some e => raise e
  end.

(** [proc.kill()] *)
Definition kill (proc : Process) : M unit :=
  os_call (Kill proc) (kill_raises proc).

(** [proc.wait(timeout=5)] *)
Definition wait (proc : Process) : M unit :=
  os_call (Wait proc) (wait_raises proc).

(** ** The sweep *)

(** [BrowserProcessKiller.__init__] *)
Record BrowserProcessKiller : Type := mkKiller {
  dry_run : bool;
  verbose : bool
}.

(** The body of the [try] block, lines 34-57. *)
Definition try_body (self : BrowserProcessKiller) (proc : Process) : M unit :=
  let cmdline := cmdline_text (cmdline proc) in
  match name proc with
  | None => raise AttributeError  (* line 39: [proc_name.lower()] *)
  | Some proc_name =>
      if is_playwright_chrome proc_name cmdline
         && negb (is_nodejs_server proc_name cmdline)
      then
        when (verbose self) (print (KillingLine proc_name (pid proc))) ;;
        when (negb (dry_run self)) (kill proc ;; wait proc) ;;
        n <- get_count ;; set_count (n + 1)
      else ret tt
  end.

(** The [except] clauses, lines 59-64.  Anything they do not name goes on
    up. *)
Definition except_clauses (self : BrowserProcessKiller) (proc : Process)
  (e : exn) : M unit :=
  match e with
  | NoSuchProcess | AccessDenied | ZombieProcess => ret tt
  | TimeoutExpired => when (verbose self) (print (TimeoutLine (pid proc)))
  | KeyboardInterrupt | OtherException _ => raise e
  end.

(** The [try] statement of lines 33-64 for one process. *)
Definition try_statement (self : BrowserProcessKiller) (proc : Process)
  : M unit :=
  try_except (try_body self proc) (except_clauses self proc).

(** The [for] loop of line 32 over the processes that [process_iter]
    yields. *)
Fixpoint for_each_process (self : BrowserProcessKiller) (procs : list Process)
  : M unit :=
  match procs with
  | [] => ret tt
  | proc :: rest => try_statement self proc ;; for_each_process self rest
  end.

(** [kill_browser_processes_only], lines 28-67, as a computation. *)
Definition kill_browser_processes_only_M (self : BrowserProcessKiller)
  (procs : list Process) : M Z :=
  set_count 0 ;;
  for_each_process self procs ;;
  n <- get_count ;;
  print (SummaryLine n) ;;
  ret n.

Definition initial : State := mkState 0 [].

(** The sweep on a snapshot of the process table: what it returns or raises,
    and what it did. *)
Definition kill_browser_processes_only (self : BrowserProcessKiller)
  (procs : list Process) : Result Z * list Event :=
  let (r, s) := kill_browser_processes_only_M self procs initial in
  (r, trace s).

(** [main], lines 77-94, after the arguments are parsed: the exit code and
    everything that happened. *)
Definition main (dry_run_flag verbose_flag : bool) (procs : list Process)
  : Z * list Event :=
  let killer := mkKiller dry_run_flag verbose_flag in
  match kill_browser_processes_only killer procs with
  | (Return killed_count, t) =>
      if killed_count >? 0
      then (0, (t ++ [Print (SuccessLine killed_count);
                      Print PreservedLine])%list)
      else (0, (t ++ [Print NoneFoundLine])%list)
  | (Raise KeyboardInterrupt, t) => (1, (t ++ [Print InterruptedLine])%list)
  | (Raise e, t) => (2, (t ++ [Print (FailedLine e)])%list)
  end.

(** ** Reading a trace *)

(** The processes to which a termination signal was sent. *)
Fixpoint signalled (t : list Event) : list Process :=
  match t with
  | [] => []
  | Kill p None :: t' => p :: signalled t'
  | _ :: t' => signalled t'
  end.

(** The processes on which [kill()] was called at all. *)
Fixpoint kill_calls (t : list Event) : list Process :=
  match t with
  | [] => []
  | Kill p _ :: t' => p :: kill_calls t'
  | _ :: t' => kill_calls t'
  end.

(** ** Reading a snapshot *)

(** The number of elements of [l] that satisfy [f], as a Python [int]. *)
Definition count {A} (f : A -> bool) (l : list A) : Z :=
  Z.of_nat (List.length (filter f l)).

Definition returns (r : option exn) : bool :=
  match r with None => true | Some _ => false end.

(** [proc.info['name']] is a [str], not [None]. *)
Definition has_name (p : Process) : bool :=
  match name p with Some _ => true | None => false end.

(** A target whose [kill()] returns: the signal is sent. *)
Definition signal_sent (p : Process) : bool :=
  is_target p && returns (kill_raises p).

(** A target whose [kill()] and [wait()] both return: the exit is
    confirmed within the wait. *)
Definition exit_confirmed (p : Process) : bool :=
  is_target p && returns (kill_raises p) && returns (wait_raises p).

(** The conditions the [except] clauses recover from. *)
Definition handled (e : exn) : bool :=
  match e with
  | NoSuchProcess | AccessDenied | ZombieProcess | TimeoutExpired => true
  | KeyboardInterrupt | OtherException _ => false
  end.

(** What lines 54-55 raise for [p] in a sweep that is not a dry run: nothing
    for a process that is not a target, else what [kill()] raises, else what
    [wait()] raises. *)
Definition try_raises (p : Process) : option exn :=
  if is_target p then
    match kill_raises p with
    | Some e => Some e
    | None => wait_raises p
    end
  else None.

(** What is raised inside the [try] block for [p] in the sweep [self]:
    [AttributeError] at line 39 when [p] has no name, in a dry run as well;
    else what lines 54-55 raise, which a dry run does not reach. *)
Definition raised_in_try (self : BrowserProcessKiller) (p : Process)
  : option exn :=
  match name p with
  | None => Some AttributeError
  | Some _ => if dry_run self then None else try_raises p
  end.

(** What the [try] statement lets through for [p]. *)
Definition escapes (self : BrowserProcessKiller) (p : Process) : option exn :=
  match raised_in_try self p with
  | Some e => if handled e then None else Some e
  | None => None
  end.

(** Whether line 57 is reached for [p]. *)
Definition counts (self : BrowserProcessKiller) (p : Process) : bool :=
  is_target p && returns (raised_in_try self p).

(** The line of line 51 for [p]. *)
Definition killing_line (p : Process) : list Line :=
  match name p with
  | Some proc_name => [KillingLine proc_name (pid p)]
  | None => []
  end.

(** What the [try] block does for [p] before it ends or raises. *)
Definition try_events (self : BrowserProcessKiller) (p : Process)
  : list Event :=
  if is_target p then
    (if verbose self then map Print (killing_line p) else [])
    ++ (if dry_run self then []
        else Kill p (kill_raises p)
             :: match kill_raises p with
                | None => [Wait p (wait_raises p)]
                | Some _ => []
                end)
  else [].

(** What the [except] clauses do for [p]. *)
Definition except_events (self : BrowserProcessKiller) (p : Process)
  : list Event :=
  match raised_in_try self p with
  | Some TimeoutExpired =>
      if verbose self then [Print (TimeoutLine (pid p))] else []
  | _ => []
  end.

(** The loop over a snapshot: the exception that ends it early if one does,
    the number of times line 57 is reached, and what is done, up to that
    exception. *)
Fixpoint loop_escapes (self : BrowserProcessKiller) (procs : list Process)
  : option exn :=
  match procs with
  | [] => None
  | p :: rest =>
      match escapes self p with
      | Some e => Some e
      | None => loop_escapes self rest
      end
  end.

Fixpoint loop_count (self : BrowserProcessKiller) (procs : list Process) : Z :=
  match procs with
  | [] => 0
  | p :: rest =>
      (if counts self p then 1 else 0)
      + match escapes self p with
        | Some _ => 0
        | None => loop_count self rest
        end
  end.

Fixpoint loop_events (self : BrowserProcessKiller) (procs : list Process)
  : list Event :=
  match procs with
  | [] => []
  | p :: rest =>
      try_events self p ++ except_events self p
      ++ match escapes self p with
         | Some _ => []
         | None => loop_events self rest
         end
  end.

(** ** The classification rule in the specification's words

    The specification reads every test of the rule as a substring test that
    ignores case: the browser tokens and the runtime-host token against the
    name, the profile marker and the two server markers against the command
    line.  These definitions follow that reading, to compare with the
    source's. *)

Definition browser_target_nocase (proc_name cmdline : string) : bool :=
  (Str.contains_nocase "chrome" proc_name
   || Str.contains_nocase "Google Chrome" proc_name)
  && Str.contains_nocase "mcp-chrome-profile" cmdline.

Definition protected_server_nocase (proc_name cmdline : string) : bool :=
  Str.contains_nocase "node" proc_name
  && (Str.contains_nocase "mcp-server-playwright" cmdline
      || Str.contains_nocase "playwright" cmdline).

Definition classify_nocase (proc_name cmdline : string) : Classification :=
  if browser_target_nocase proc_name cmdline
     && negb (protected_server_nocase proc_name cmdline)
  then Target else Ignored.

(** ** Sample processes *)

Definition chrome_ok : Process :=
  mkProcess 101 (Some "Google Chrome")
    (Some ["/opt/chrome"; "--user-data-dir=/tmp/mcp-chrome-profile-123"])
    None None.

Definition node_server : Process :=
  mkProcess 102 (Some "node")
    (Some ["node"; "/usr/lib/mcp-server-playwright/cli.js"; "--browser=chrome"])
    None None.

Definition chrome_plain : Process :=
  mkProcess 103 (Some "chrome") (Some ["/opt/chrome"; "--incognito"]) None None.

Definition chrome_gone : Process :=
  mkProcess 104 (Some "chrome")
    (Some ["chrome"; "--user-data-dir=/tmp/mcp-chrome-profile-9"])
    (Some NoSuchProcess) None.

Definition chrome_stuck : Process :=
  mkProcess 105 (Some "chrome")
    (Some ["chrome"; "--user-data-dir=/tmp/mcp-chrome-profile-9"])
    None (Some TimeoutExpired).

Definition both_patterns : Process :=
  mkProcess 106 (Some "chrome-node-helper")
    (Some ["helper"; "--user-data-dir=/tmp/mcp-chrome-profile-1"; "playwright"])
    None None.

Definition no_argv : Process :=
  mkProcess 107 (Some "chrome") None None None.

Definition chrome_interrupted : Process :=
  mkProcess 108 (Some "chrome")
    (Some ["chrome"; "--user-data-dir=/tmp/mcp-chrome-profile-9"])
    None (Some KeyboardInterrupt).


Definition chrome_denied : Process :=
  mkProcess 110 (Some "chrome")
    (Some ["chrome"; "--user-data-dir=/tmp/mcp-chrome-profile-9"])
    (Some AccessDenied) None.

(** A process that [psutil] was not allowed to inspect: no name and no
    argument vector in [proc.info]. *)
Definition denied_inspection : Process :=
  mkProcess 111 None None None None.

(** ** More readings of a trace *)

(** The calls made on process objects, in order, without the prints. *)
Fixpoint os_calls (t : list Event) : list Event :=
  match t with
  | [] => []
  | Print _ :: t' => os_calls t'
  | e :: t' => e :: os_calls t'
  end.

(** The lines printed, in order. *)
Fixpoint printed (t : list Event) : list Line :=
  match t with
  | [] => []
  | Print l :: t' => l :: printed t'
  | _ :: t' => printed t'
  end.

(** The counts shown by the summary lines (line 66) among [ls]. *)
Fixpoint summaries (ls : list Line) : list Z :=
  match ls with
  | [] => []
  | SummaryLine n :: ls' => n :: summaries ls'
  | _ :: ls' => summaries ls'
  end.

(** The name and pid shown by the lines of line 51 among [ls]. *)
Fixpoint announced (ls : list Line) : list (option string * Z) :=
  match ls with
  | [] => []
  | KillingLine proc_name proc_pid :: ls' =>
      (Some proc_name, proc_pid) :: announced ls'
  | _ :: ls' => announced ls'
  end.

(** The pids shown by the lines of line 63 among [ls]. *)
Fixpoint timeouts (ls : list Line) : list Z :=
  match ls with
  | [] => []
  | TimeoutLine proc_pid :: ls' => proc_pid :: timeouts ls'
  | _ :: ls' => timeouts ls'
  end.

(** Lines 54-55 on one process: [kill()], then [wait()] when [kill()]
    returned. *)
Definition calls_on (p : Process) : list Event :=
  Kill p (kill_raises p)
  :: match kill_raises p with
     | None => [Wait p (wait_raises p)]
     | Some _ => []
     end.

Definition is_timeout (r : option exn) : bool :=
  match r with
  | Some TimeoutExpired => true
  | _ => false
  end.

(** A target for which the [try] block raises [TimeoutExpired]. *)
Definition timed_out (p : Process) : bool :=
  is_target p && is_timeout (try_raises p).

(** The argument vector the script works with:
    [proc.info['cmdline'] or []] (line 35). *)
Definition arguments (p : Process) : list string :=
  match cmdline p with
  | None => []
  | Some argv => argv
  end.

(** [token in proc_name.lower()] on a record, where the record has a name. *)
Definition name_contains (token : string) (p : Process) : bool :=
  match name p with
  | Some proc_name => token in_ Str.lower proc_name
  | None => false
  end.

(** [c in s] for one character [c]. *)
Fixpoint has_char (c : ascii) (s : string) : bool :=
  match s with
  | EmptyString => false
  | String x s' => Ascii.eqb c x || has_char c s'
  end.

(** ** The script as a whole *)

(** What the script writes when it is run: the line of the import guard
    (line 18), or what [main] does. *)
Inductive Output : Type :=
| PsutilMissingLine
| FromMain (e : Event).

(** Running the file as a script, lines 15-19 and 96-97: when [psutil]
    cannot be imported the script prints an error and exits with 1 before
    anything else; otherwise it exits with what [main] returns.  The flags
    are what [parse_args] made of the command line. *)
Definition script (psutil_installed dry_run_flag verbose_flag : bool)
  (procs : list Process) : Z * list Output :=
  if psutil_installed then
    let (code, t) := main dry_run_flag verbose_flag procs in
    (code, map FromMain t)
  else (1, [PsutilMissingLine]).

(** What [main] did, of what the script wrote. *)
Fixpoint from_main (out : list Output) : list Event :=
  match out with
  | [] => []
  | FromMain e :: out' => e :: from_main out'
  | PsutilMissingLine :: out' => from_main out'
  end.

(** * Properties *)

(** ** Substring tests *)

Module StrFacts.
Import Str.

Lemma app_assoc (a b c : string) : (a ++ b) ++ c = a ++ b ++ c.
Proof. induction a as [|x a IH]; simpl; [reflexivity | now rewrite IH]. Qed.

Lemma startswith_app (sub t : string) : startswith sub (sub ++ t) = true.
Proof.
  induction sub as [|a sub IH]; simpl; [reflexivity|].
  now rewrite Ascii.eqb_refl, IH.
Qed.

Lemma startswith_inv (sub s : string) :
  startswith sub s = true -> exists t, s = sub ++ t.
Proof.
  revert s; induction sub as [|a sub IH]; intros s H.
  - now exists s.
  - destruct s as [|b s]; simpl in H; [discriminate|].
    apply andb_prop in H as [Hab Hs].
    apply Ascii.eqb_eq in Hab; subst b.
    destruct (IH _ Hs) as [t ->]. now exists t.
Qed.

(** [sub in s] holds exactly when [s] is some text, then [sub], then some
    text. *)
Lemma contains_startswith (sub s : string) :
  startswith sub s = true -> contains sub s = true.
Proof. destruct s; simpl; intros ->; reflexivity. Qed.

Lemma contains_intro (pre sub post : string) :
  contains sub (pre ++ sub ++ post) = true.
Proof.
  induction pre as [|c pre IH].
  - change ("" ++ sub ++ post) with (sub ++ post).
    apply contains_startswith, startswith_app.
  - simpl. rewrite IH. apply orb_true_r.
Qed.

Lemma contains_inv (sub s : string) :
  contains sub s = true -> exists pre post, s = pre ++ sub ++ post.
Proof.
  induction s as [|c s IH]; simpl; intros H.
  - rewrite orb_false_r in H.
    destruct (startswith_inv _ _ H) as [t ->]. now exists "", t.
  - apply orb_prop in H as [H|H].
    + destruct (startswith_inv _ _ H) as [t ->]. now exists "", t.
    + destruct (IH H) as (pre & post & ->). now exists (String c pre), post.
Qed.

(** A substring of a substring is a substring. *)
Lemma contains_trans (a b s : string) :
  contains a b = true -> contains b s = true -> contains a s = true.
Proof.
  intros Hab Hbs.
  destruct (contains_inv _ _ Hab) as (p2 & q2 & ->).
  destruct (contains_inv _ _ Hbs) as (p1 & q1 & ->).
  replace (p1 ++ (p2 ++ a ++ q2) ++ q1) with ((p1 ++ p2) ++ a ++ (q2 ++ q1)).
  - apply contains_intro.
  - now rewrite !app_assoc.
Qed.

Lemma lower_app (a b : string) : lower (a ++ b) = lower a ++ lower b.
Proof. induction a as [|x a IH]; simpl; [reflexivity | now rewrite IH]. Qed.

Lemma contains_lower (sub s : string) :
  contains sub s = true -> contains (lower sub) (lower s) = true.
Proof.
  intros H. destruct (contains_inv _ _ H) as (pre & post & ->).
  rewrite !lower_app. apply contains_intro.
Qed.

Lemma lower_ascii_idem (c : ascii) : lower_ascii (lower_ascii c) = lower_ascii c.
Proof.
  destruct c as [[] [] [] [] [] [] [] []]; reflexivity.
Qed.

Lemma lower_idem (s : string) : lower (lower s) = lower s.
Proof.
  induction s as [|c s IH]; simpl; [reflexivity|].
  now rewrite lower_ascii_idem, IH.
Qed.

(** A test that ignores case sees a string only through its lower-casing. *)
Lemma contains_nocase_blind (sub s s' : string) :
  lower s = lower s' -> contains_nocase sub s = contains_nocase sub s'.
Proof. unfold contains_nocase. now intros ->. Qed.

Lemma contains_empty_hay (sub : string) :
  sub <> "" -> contains sub "" = false.
Proof. destruct sub; [congruence | reflexivity]. Qed.

End StrFacts.

(** ** The two tests of the classification *)

(** The second alternative of the name test of line 39 never decides: a name
    that contains ["Google Chrome"] contains ["chrome"] once lower-cased. *)
Lemma google_chrome_absorbed (proc_name : string) :
  ("chrome" in_ Str.lower proc_name) || ("Google Chrome" in_ proc_name)
  = ("chrome" in_ Str.lower proc_name).
Proof.
  destruct ("Google Chrome" in_ proc_name) eqn:G.
  - apply StrFacts.contains_lower in G.
    assert (T : ("chrome" in_ Str.lower "Google Chrome") = true)
      by reflexivity.
    rewrite (StrFacts.contains_trans _ _ _ T G). reflexivity.
  - apply orb_false_r.
Qed.

(** The first alternative of the marker test of line 46 never decides. *)
Lemma server_marker_absorbed (cmdline : string) :
  ("mcp-server-playwright" in_ cmdline) || ("playwright" in_ cmdline)
  = ("playwright" in_ cmdline).
Proof.
  destruct ("mcp-server-playwright" in_ cmdline) eqn:G.
  - assert (T : ("playwright" in_ "mcp-server-playwright") = true)
      by reflexivity.
    rewrite (StrFacts.contains_trans _ _ _ T G). reflexivity.
  - reflexivity.
Qed.

Lemma classification_final (p : Process) :
  classification p
  = match category p with
    | Return c => Return (final c)
    | Raise e => Raise e
    end.
Proof.
  unfold classification, classify, category. cbv zeta.
  destruct (name p); [|reflexivity].
  destruct (is_playwright_chrome _ _), (is_nodejs_server _ _); reflexivity.
Qed.

Lemma is_target_iff (p : Process) :
  is_target p = true <-> classification p = Return Target.
Proof.
  unfold is_target. destruct (classification p) as [[]|]; split; congruence.
Qed.

Lemma is_target_tests (p : Process) :
  is_target p =
  match name p with
  | Some proc_name =>
      is_playwright_chrome proc_name (cmdline_text (cmdline p))
      && negb (is_nodejs_server proc_name (cmdline_text (cmdline p)))
  | None => false
  end.
Proof.
  unfold is_target, classification, classify.
  destruct (name p); [|reflexivity].
  destruct (_ && _); reflexivity.
Qed.

(** A record without a name is no target: line 49 is not reached for it. *)
Lemma unnamed_not_target (p : Process) :
  name p = None -> is_target p = false.
Proof. intros N. rewrite is_target_tests. now rewrite N. Qed.

Lemma target_named (p : Process) :
  is_target p = true -> exists proc_name, name p = Some proc_name.
Proof.
  rewrite is_target_tests. destruct (name p) as [n|]; [|discriminate].
  now exists n.
Qed.

(** ** One iteration, and the loop *)

Lemma state_eta (s : State) : mkState (killed_count s) (trace s) = s.
Proof. now destruct s. Qed.

Ltac tidy_state :=
  cbn [killed_count trace];
  rewrite ?Z.add_0_r, <- ?List.app_assoc, ?List.app_nil_r, ?state_eta;
  cbn [List.app].

(** The [try] statement for one process, in one step. *)
Lemma try_statement_spec (self : BrowserProcessKiller) (p : Process)
  (s : State) :
  try_statement self p s =
  (match escapes self p with None => Return tt | Some e => Raise e end,
   mkState (killed_count s + (if counts self p then 1 else 0))
           (trace s ++ try_events self p ++ except_events self p)).
Proof.
  unfold try_statement, try_except, try_body, escapes, counts, try_events,
    except_events, raised_in_try, try_raises, killing_line.
  rewrite (is_target_tests p).
  destruct self as [dry verb]; cbn [dry_run verbose].
  destruct (name p) as [proc_name|].
  2: { unfold raise; cbn; tidy_state; reflexivity. }
  destruct (is_playwright_chrome _ _ && negb (is_nodejs_server _ _)).
  2: { destruct dry; cbn; tidy_state; reflexivity. }
  unfold except_clauses, when, print, kill, wait, os_call, bind, emit, ret,
    raise, get_count, set_count.
  destruct verb, dry; cbn; tidy_state; try reflexivity;
    destruct (kill_raises p) as [[]|]; cbn; tidy_state; try reflexivity;
    destruct (wait_raises p) as [[]|]; cbn; tidy_state; reflexivity.
Qed.

(** [raised_in_try] is what the [try] block raises. *)
Lemma try_body_raises (self : BrowserProcessKiller) (p : Process) (s : State) :
  fst (try_body self p s)
  = match raised_in_try self p with None => Return tt | Some e => Raise e end.
Proof.
  unfold try_body, raised_in_try, try_raises.
  rewrite (is_target_tests p).
  destruct self as [dry verb]; cbn [dry_run verbose].
  destruct (name p) as [proc_name|]; [|reflexivity].
  destruct (is_playwright_chrome _ _ && negb (is_nodejs_server _ _)).
  2: { now destruct dry. }
  unfold when, print, kill, wait, os_call, bind, emit, ret, raise, get_count,
    set_count.
  destruct verb, dry; cbn; try reflexivity;
    destruct (kill_raises p) as [e|]; cbn; try reflexivity;
    destruct (wait_raises p) as [e|]; reflexivity.
Qed.

Lemma for_each_process_spec (self : BrowserProcessKiller)
  (procs : list Process) (s : State) :
  for_each_process self procs s =
  (match loop_escapes self procs with None => Return tt | Some e => Raise e end,
   mkState (killed_count s + loop_count self procs)
           (trace s ++ loop_events self procs)).
Proof.
  revert s; induction procs as [|p rest IH]; intros s; cbn [for_each_process].
  - unfold ret. cbn. tidy_state. reflexivity.
  - unfold bind. rewrite try_statement_spec.
    cbn [loop_escapes loop_count loop_events].
    destruct (escapes self p) as [e|].
    + tidy_state. reflexivity.
    + rewrite IH. cbn [killed_count trace].
      rewrite <- !List.app_assoc, Z.add_assoc. reflexivity.
Qed.

(** The sweep in closed form. *)
Lemma sweep_spec (self : BrowserProcessKiller) (procs : list Process) :
  kill_browser_processes_only self procs =
  match loop_escapes self procs with
  | None => (Return (loop_count self procs),
             (loop_events self procs
              ++ [Print (SummaryLine (loop_count self procs))])%list)
  | Some e => (Raise e, loop_events self procs)
  end.
Proof.
  unfold kill_browser_processes_only, kill_browser_processes_only_M, bind,
    set_count, get_count, print, emit, ret, initial.
  rewrite for_each_process_spec. cbn [killed_count trace List.app].
  destruct (loop_escapes self procs); reflexivity.
Qed.

Lemma count_cons {A} (f : A -> bool) (x : A) (l : list A) :
  count f (x :: l) = (if f x then 1 else 0) + count f l.
Proof.
  unfold count. cbn [filter]. destruct (f x); cbn [List.length]; lia.
Qed.

Lemma count_nonneg {A} (f : A -> bool) (l : list A) : 0 <= count f l.
Proof. unfold count. lia. Qed.

Lemma count_ext {A} (f g : A -> bool) (l : list A) :
  (forall x, In x l -> f x = g x) -> count f l = count g l.
Proof.
  induction l as [|x l IH]; intros H; [reflexivity|].
  rewrite !count_cons, (H x (or_introl eq_refl)), IH; [reflexivity|].
  intros y Hy. apply H. now right.
Qed.

Lemma count_le {A} (f g : A -> bool) (l : list A) :
  (forall x, f x = true -> g x = true) -> count f l <= count g l.
Proof.
  intros H. induction l as [|x l IH]; [reflexivity|].
  rewrite !count_cons. specialize (H x).
  destruct (f x), (g x); first [lia | discriminate (H eq_refl)].
Qed.

Lemma count_app {A} (f : A -> bool) (l1 l2 : list A) :
  count f (l1 ++ l2) = count f l1 + count f l2.
Proof.
  unfold count. rewrite filter_app, List.length_app. lia.
Qed.

(** When the loop runs to its end, line 57 was reached once for each
    process that counts. *)
Lemma loop_count_complete (self : BrowserProcessKiller) (procs : list Process) :
  loop_escapes self procs = None ->
  loop_count self procs = count (counts self) procs.
Proof.
  induction procs as [|p rest IH]; cbn [loop_escapes loop_count]; intros H.
  - reflexivity.
  - rewrite count_cons. destruct (escapes self p); [discriminate|].
    now rewrite IH.
Qed.

Lemma loop_escapes_none (self : BrowserProcessKiller) (procs : list Process) :
  loop_escapes self procs = None <->
  (forall p, In p procs -> escapes self p = None).
Proof.
  induction procs as [|p rest IH]; cbn [loop_escapes].
  - split; [intros _ q [] | reflexivity].
  - destruct (escapes self p) eqn:E.
    + split; [discriminate|]. intros H.
      rewrite <- E. apply H. now left.
    + rewrite IH. split.
      * intros H q [<-|Hq]; [exact E | now apply H].
      * intros H q Hq. apply H. now right.
Qed.

(** What the sweep returns when it returns. *)
Lemma sweep_returns (self : BrowserProcessKiller) (procs : list Process)
  (n : Z) :
  fst (kill_browser_processes_only self procs) = Return n ->
  loop_escapes self procs = None /\ n = count (counts self) procs.
Proof.
  rewrite sweep_spec. destruct (loop_escapes self procs) eqn:E;
    cbn [fst]; intros H; [discriminate|].
  injection H as <-. split; [reflexivity|].
  now apply loop_count_complete.
Qed.

Lemma sweep_completes (self : BrowserProcessKiller) (procs : list Process) :
  loop_escapes self procs = None ->
  fst (kill_browser_processes_only self procs)
  = Return (count (counts self) procs).
Proof.
  intros E. rewrite sweep_spec, E. cbn [fst].
  now rewrite loop_count_complete.
Qed.

(** ** Which processes are signalled *)

Lemma kill_calls_app (t1 t2 : list Event) :
  kill_calls (t1 ++ t2) = (kill_calls t1 ++ kill_calls t2)%list.
Proof.
  induction t1 as [|[l|p r|p r] t1 IH]; cbn [kill_calls List.app];
    now rewrite ?IH.
Qed.

Lemma signalled_app (t1 t2 : list Event) :
  signalled (t1 ++ t2) = (signalled t1 ++ signalled t2)%list.
Proof.
  induction t1 as [|[l|p [e|]|p r] t1 IH]; cbn [signalled List.app];
    now rewrite ?IH.
Qed.

(** One iteration by cases: the name is there or not, the process is a
    target or not, the two flags, and what [kill()] and [wait()] do. *)
Ltac iteration_cases self p :=
  unfold try_events, except_events, raised_in_try, try_raises, killing_line;
  destruct self as [dry verb]; cbn [dry_run verbose];
  let N := fresh "N" in
  destruct (name p) as [proc_name|] eqn:N;
  [ destruct (is_target p), verb, dry; try reflexivity;
    destruct (kill_raises p) as [[]|]; try reflexivity;
    destruct (wait_raises p) as [[]|]; reflexivity
  | rewrite (unnamed_not_target p N); reflexivity ].

Lemma kill_calls_iteration (self : BrowserProcessKiller) (p : Process) :
  kill_calls (try_events self p ++ except_events self p)
  = if is_target p && negb (dry_run self) then [p] else [].
Proof. iteration_cases self p. Qed.

Lemma signalled_iteration (self : BrowserProcessKiller) (p : Process) :
  signalled (try_events self p ++ except_events self p)
  = if signal_sent p && negb (dry_run self) then [p] else [].
Proof. unfold signal_sent. iteration_cases self p. Qed.

(** [kill()] is only ever called on a target, and never in a dry run. *)
Lemma kill_calls_loop (self : BrowserProcessKiller) (procs : list Process)
  (q : Process) :
  In q (kill_calls (loop_events self procs)) ->
  dry_run self = false /\ In q procs /\ is_target q = true.
Proof.
  induction procs as [|p rest IH]; cbn [loop_events kill_calls]; [intros []|].
  rewrite List.app_assoc, kill_calls_app, kill_calls_iteration.
  intros H. apply in_app_or in H as [H|H].
  - destruct (is_target p) eqn:T, (dry_run self); cbn in H; try easy.
    destruct H as [<-|[]]. repeat split; [now left | exact T].
  - destruct (escapes self p); [destruct H|].
    destruct (IH H) as (D & I & T). repeat split; [exact D | now right | exact T].
Qed.

Lemma sweep_trace (self : BrowserProcessKiller) (procs : list Process) :
  kill_calls (snd (kill_browser_processes_only self procs))
  = kill_calls (loop_events self procs)
  /\ signalled (snd (kill_browser_processes_only self procs))
     = signalled (loop_events self procs).
Proof.
  rewrite sweep_spec. destruct (loop_escapes self procs); cbn [snd].
  - now split.
  - rewrite kill_calls_app, signalled_app. cbn. now rewrite !List.app_nil_r.
Qed.

Lemma sweep_kills_targets_only (self : BrowserProcessKiller)
  (procs : list Process) (q : Process) :
  In q (kill_calls (snd (kill_browser_processes_only self procs))) ->
  dry_run self = false /\ In q procs /\ is_target q = true.
Proof.
  rewrite (proj1 (sweep_trace self procs)). apply kill_calls_loop.
Qed.

(** A sweep that runs to its end has signalled, in order, the targets whose
    [kill()] returned. *)
Lemma signalled_loop (self : BrowserProcessKiller) (procs : list Process) :
  dry_run self = false ->
  loop_escapes self procs = None ->
  signalled (loop_events self procs) = filter signal_sent procs.
Proof.
  intros D. induction procs as [|p rest IH];
    cbn [loop_escapes loop_events filter]; [reflexivity|].
  rewrite List.app_assoc, signalled_app, signalled_iteration, D.
  destruct (escapes self p); [discriminate|]. intros E.
  rewrite (IH E). cbn [negb]. rewrite andb_true_r.
  destruct (signal_sent p); reflexivity.
Qed.

(** In a sweep that is not a dry run, line 57 is reached for the targets
    whose [kill()] and [wait()] both returned; in a dry run, for every
    target. *)
Lemma counts_live (verb : bool) (p : Process) :
  counts (mkKiller false verb) p = exit_confirmed p.
Proof.
  unfold counts, exit_confirmed, raised_in_try, try_raises. cbn [dry_run].
  destruct (name p) eqn:N; [|now rewrite (unnamed_not_target p N)].
  destruct (is_target p), (kill_raises p), (wait_raises p); reflexivity.
Qed.

Lemma counts_dry (verb : bool) (p : Process) :
  counts (mkKiller true verb) p = is_target p.
Proof.
  unfold counts, raised_in_try. cbn [dry_run].
  destruct (name p) eqn:N; [apply andb_true_r|].
  now rewrite (unnamed_not_target p N).
Qed.

Lemma counts_target (self : BrowserProcessKiller) (p : Process) :
  counts self p = true -> is_target p = true.
Proof. unfold counts. intros H. now apply andb_prop in H. Qed.

(** Nothing gets out of the [try] statement of a dry run for a record that
    has a name; [AttributeError] does for one that has none, in any sweep. *)
Lemma escapes_dry (verb : bool) (p : Process) :
  escapes (mkKiller true verb) p
  = if has_name p then None else Some AttributeError.
Proof.
  unfold escapes, raised_in_try, has_name. cbn [dry_run].
  now destruct (name p).
Qed.

Lemma escapes_unnamed (self : BrowserProcessKiller) (p : Process) :
  name p = None -> escapes self p = Some AttributeError.
Proof. unfold escapes, raised_in_try. now intros ->. Qed.

Lemma escapes_named (self : BrowserProcessKiller) (p : Process) :
  escapes self p = None -> has_name p = true.
Proof.
  unfold escapes, raised_in_try, has_name.
  destruct (name p); [reflexivity | discriminate].
Qed.

Lemma dry_run_never_escapes (verb : bool) (procs : list Process) :
  (forall p, In p procs -> has_name p = true) ->
  loop_escapes (mkKiller true verb) procs = None.
Proof.
  intros H. apply loop_escapes_none. intros p Hp.
  now rewrite escapes_dry, (H p Hp).
Qed.

(** A sweep that runs to its end has met no record without a name. *)
Lemma completed_all_named (self : BrowserProcessKiller)
  (procs : list Process) :
  loop_escapes self procs = None ->
  forall p, In p procs -> has_name p = true.
Proof.
  intros E p Hp. apply (escapes_named self).
  now apply (proj1 (loop_escapes_none self procs) E).
Qed.

(** A dry run that returns, returns the number of targets of the snapshot;
    it returns when every record has a name. *)
Lemma dry_run_returned (verb : bool) (procs : list Process) (m : Z) :
  fst (kill_browser_processes_only (mkKiller true verb) procs) = Return m ->
  m = count is_target procs.
Proof.
  intros H. apply sweep_returns in H as [_ ->].
  apply count_ext. intros p _. apply counts_dry.
Qed.

Lemma dry_run_returns (verb : bool) (procs : list Process) :
  (forall p, In p procs -> has_name p = true) ->
  fst (kill_browser_processes_only (mkKiller true verb) procs)
  = Return (count is_target procs).
Proof.
  intros H. rewrite sweep_completes by now apply dry_run_never_escapes.
  f_equal. apply count_ext. intros p _. apply counts_dry.
Qed.

(** A dry run calls [kill()] on nothing. *)
Lemma dry_run_kills_nothing (verb : bool) (procs : list Process) :
  kill_calls (snd (kill_browser_processes_only (mkKiller true verb) procs))
  = [].
Proof.
  destruct (kill_calls _) as [|q l] eqn:E; [reflexivity|].
  assert (H : In q (kill_calls
    (snd (kill_browser_processes_only (mkKiller true verb) procs))))
    by (rewrite E; now left).
  apply sweep_kills_targets_only in H as [D _]. discriminate D.
Qed.

Lemma count_filter {A} (f g : A -> bool) (l : list A) :
  count g (filter f l) = count (fun x => f x && g x) l.
Proof.
  induction l as [|x l IH]; [reflexivity|].
  cbn [filter]. destruct (f x) eqn:F.
  - rewrite !count_cons, F, IH. reflexivity.
  - rewrite count_cons, F, IH. cbn [andb]. lia.
Qed.

(** Where [f] is below [g], equal counts make them agree on the list. *)
Lemma count_eq_pointwise {A} (f g : A -> bool) (l : list A) :
  (forall x, f x = true -> g x = true) ->
  count f l = count g l ->
  forall x, In x l -> f x = g x.
Proof.
  intros Hfg. induction l as [|y l IH]; intros E x Hx; [destruct Hx|].
  rewrite !count_cons in E.
  pose proof (count_le f g l Hfg) as L.
  pose proof (Hfg y) as Hy.
  destruct Hx as [<-|Hx].
  - destruct (f y), (g y); first [reflexivity | lia | discriminate (Hy eq_refl)].
  - apply IH; [|exact Hx].
    destruct (f y), (g y); first [lia | discriminate (Hy eq_refl)].
Qed.

(** ** The scenarios of the specification, run *)

(** A process named [Google Chrome] under the automation profile is a
    target; the sweep signals it and returns 1. *)
Example scenario_browser_under_profile :
  classification chrome_ok = Return Target
  /\ kill_browser_processes_only (mkKiller false false) [chrome_ok]
     = (Return 1, [Kill chrome_ok None; Wait chrome_ok None;
                   Print (SummaryLine 1)]).
Proof. split; reflexivity. Qed.

(** The server is left alone, even with [chrome] among its arguments. *)
Example scenario_server_preserved :
  classification node_server = Return Ignored
  /\ kill_browser_processes_only (mkKiller false true) [node_server]
     = (Return 0, [Print (SummaryLine 0)]).
Proof. split; reflexivity. Qed.

(** A browser that was not launched under the profile is left alone. *)
Example scenario_browser_without_profile :
  classification chrome_plain = Return Ignored
  /\ fst (kill_browser_processes_only (mkKiller false false) [chrome_plain])
     = Return 0.
Proof. split; reflexivity. Qed.

(** No target: zero kills are reported and the exit code is 0. *)
Example scenario_nothing_to_kill :
  main false false [node_server; chrome_plain]
  = (0, [Print (SummaryLine 0); Print NoneFoundLine]).
Proof. reflexivity. Qed.

(** A target that disappears before the signal is skipped and not counted;
    the sweep goes on to the next process. *)
Example scenario_target_vanishes :
  kill_browser_processes_only (mkKiller false false) [chrome_gone; chrome_ok]
  = (Return 1, [Kill chrome_gone (Some NoSuchProcess);
                Kill chrome_ok None; Wait chrome_ok None;
                Print (SummaryLine 1)]).
Proof. reflexivity. Qed.

(** ** Skipping a process *)

Lemma sweep_result (self : BrowserProcessKiller) (procs : list Process) :
  fst (kill_browser_processes_only self procs)
  = match loop_escapes self procs with
    | None => Return (loop_count self procs)
    | Some e => Raise e
    end.
Proof. rewrite sweep_spec. now destruct (loop_escapes self procs). Qed.

(** A process for which nothing gets out of the [try] statement and line 57
    is not reached leaves the result of the sweep as it would be without
    it. *)
Lemma loop_skip (self : BrowserProcessKiller) (l1 l2 : list Process)
  (p : Process) :
  escapes self p = None -> counts self p = false ->
  loop_escapes self (l1 ++ p :: l2) = loop_escapes self (l1 ++ l2)
  /\ loop_count self (l1 ++ p :: l2) = loop_count self (l1 ++ l2).
Proof.
  intros E C. induction l1 as [|a l1 [IHe IHc]];
    cbn [List.app loop_escapes loop_count].
  - rewrite E, C. split; [reflexivity | lia].
  - rewrite IHe, IHc. now split.
Qed.

Lemma escapes_unhandled (self : BrowserProcessKiller) (p : Process) (e : exn) :
  escapes self p = Some e -> handled e = false.
Proof.
  unfold escapes. destruct (raised_in_try self p) as [e'|]; [|discriminate].
  destruct (handled e') eqn:H; [discriminate|]. now intros [= <-].
Qed.

Lemma loop_escapes_unhandled (self : BrowserProcessKiller)
  (procs : list Process) (e : exn) :
  loop_escapes self procs = Some e -> handled e = false.
Proof.
  induction procs as [|p rest IH]; cbn [loop_escapes]; [discriminate|].
  destruct (escapes self p) eqn:E; [|exact IH].
  intros [= <-]. exact (escapes_unhandled _ _ _ E).
Qed.

(** A process that has a name and is not a target goes through the [try]
    statement without a trace. *)
Lemma ignored_is_skipped (self : BrowserProcessKiller) (p : Process)
  (s : State) :
  has_name p = true -> is_target p = false ->
  try_statement self p s = (Return tt, s).
Proof.
  intros N T. rewrite try_statement_spec.
  unfold escapes, counts, try_events, except_events, raised_in_try, try_raises.
  unfold has_name in N. rewrite T. destruct (name p); [|discriminate N].
  destruct (dry_run self); cbn; tidy_state; reflexivity.
Qed.

Lemma for_each_process_ignores (self : BrowserProcessKiller)
  (l1 l2 : list Process) (p : Process) (s : State) :
  has_name p = true -> is_target p = false ->
  for_each_process self (l1 ++ p :: l2) s = for_each_process self (l1 ++ l2) s.
Proof.
  intros N T. revert s. induction l1 as [|a l1 IH]; intros s;
    cbn [List.app for_each_process]; unfold bind.
  - now rewrite ignored_is_skipped.
  - destruct (try_statement self a s) as [[[]|e] s']; [apply IH | reflexivity].
Qed.

(** A sweep stops with [AttributeError] at the first record without a name
    that it comes to. *)
Lemma sweep_meets_unnamed (self : BrowserProcessKiller) (p : Process)
  (rest : list Process) :
  name p = None ->
  kill_browser_processes_only self (p :: rest) = (Raise AttributeError, []).
Proof.
  intros N. rewrite sweep_spec. cbn [loop_escapes loop_events].
  rewrite (escapes_unnamed self p N).
  unfold try_events, except_events, raised_in_try.
  now rewrite (unnamed_not_target p N), N.
Qed.

(** ** The claims *)

(** C1. Precedence: a process that passes both the browser test (browser
    token in the name, profile marker in the command line) and the server
    test (runtime-host token in the name, a server marker in the command
    line) is classified Ignored, its category is the vetoed one, and no
    sweep, whatever its options and whatever else is in the snapshot, calls
    [kill()] on it. *)
Theorem protected_takes_precedence (p : Process) (proc_name : string)
  (Hname : name p = Some proc_name)
  (Hbrowser : is_playwright_chrome proc_name (cmdline_text (cmdline p)) = true)
  (Hserver : is_nodejs_server proc_name (cmdline_text (cmdline p)) = true) :
  classification p = Return Ignored
  /\ category p = Return CatProtectedVetoedIgnored
  /\ forall self procs,
       ~ In p (kill_calls (snd (kill_browser_processes_only self procs))).
Proof.
  assert (C : classification p = Return Ignored).
  { unfold classification, classify. now rewrite Hname, Hbrowser, Hserver. }
  repeat split.
  - exact C.
  - unfold category. now rewrite Hname, Hbrowser, Hserver.
  - intros self procs H.
    apply sweep_kills_targets_only in H as (_ & _ & T).
    apply is_target_iff in T. congruence.
Qed.

Lemma protected_takes_precedence_witness :
  classification both_patterns = Return Ignored
  /\ category both_patterns = Return CatProtectedVetoedIgnored
  /\ forall self procs,
       ~ In both_patterns
            (kill_calls (snd (kill_browser_processes_only self procs))).
Proof.
  apply (protected_takes_precedence both_patterns "chrome-node-helper");
    reflexivity.
Defined.

(** C2, as the specification states it, fails: a target whose [kill()]
    returns and whose [wait(timeout=5)] raises [TimeoutExpired] has been sent
    the signal, and the sweep returns 0, not 1. *)
Lemma timed_out_target_not_counted :
  let run := kill_browser_processes_only (mkKiller false false) [chrome_stuck] in
  signalled (snd run) = [chrome_stuck]
  /\ fst run = Return 0
  /\ Z.of_nat (List.length (signalled (snd run))) = 1.
Proof. repeat split. Qed.

(** C2, amended. A sweep that is not a dry run and returns, returns the
    number of targets whose [kill()] and [wait(timeout=5)] both returned:
    line 57 comes after the wait.  The targets that were sent the signal are
    those whose [kill()] returned, and the count is the number of them whose
    wait returned as well; a signalled target whose wait raised is not
    counted. *)
Theorem count_is_confirmed_exits (verb : bool) (procs : list Process) (n : Z) :
  fst (kill_browser_processes_only (mkKiller false verb) procs) = Return n ->
  let t := snd (kill_browser_processes_only (mkKiller false verb) procs) in
  n = count exit_confirmed procs
  /\ signalled t = filter signal_sent procs
  /\ n = count (fun p => returns (wait_raises p)) (signalled t).
Proof.
  intros H t. apply sweep_returns in H as [E ->].
  assert (S : signalled t = filter signal_sent procs).
  { unfold t. rewrite (proj2 (sweep_trace _ _)).
    now apply signalled_loop. }
  assert (C : count (counts (mkKiller false verb)) procs
              = count exit_confirmed procs).
  { apply count_ext. intros p _. apply counts_live. }
  repeat split.
  - exact C.
  - exact S.
  - rewrite S, count_filter, C. reflexivity.
Qed.

Lemma count_is_confirmed_exits_witness :
  let procs := [chrome_ok; chrome_stuck; node_server; chrome_gone] in
  let t := snd (kill_browser_processes_only (mkKiller false true) procs) in
  1 = count exit_confirmed procs
  /\ signalled t = filter signal_sent procs
  /\ 1 = count (fun p => returns (wait_raises p)) (signalled t).
Proof.
  apply (count_is_confirmed_exits true
           [chrome_ok; chrome_stuck; node_server; chrome_gone] 1).
  reflexivity.
Defined.

(** C3, as the specification states it, fails: on a snapshot with one target
    that vanishes before the signal ([kill()] raises [NoSuchProcess]), the dry
    run returns 1 and the real sweep returns 0. *)
Lemma dry_run_counts_vanished_target :
  fst (kill_browser_processes_only (mkKiller true false) [chrome_gone])
  = Return 1
  /\ fst (kill_browser_processes_only (mkKiller false false) [chrome_gone])
     = Return 0.
Proof. split; reflexivity. Qed.

(** C3, amended. On any snapshot a dry run calls [kill()] on nothing.  When
    it returns, it returns the number of targets of the snapshot; the sweep
    that is not a dry run returns that same count on the same snapshot
    exactly when no [kill()] and no [wait()] on a target raises, and it never
    returns a larger one. *)
Theorem dry_run_law (verb verb' : bool) (procs : list Process) :
  kill_calls (snd (kill_browser_processes_only (mkKiller true verb) procs)) = []
  /\ forall m,
       fst (kill_browser_processes_only (mkKiller true verb) procs)
       = Return m ->
       m = count is_target procs
       /\ (fst (kill_browser_processes_only (mkKiller false verb') procs)
           = Return m
           <-> forall p, In p procs -> try_raises p = None)
       /\ (forall n,
             fst (kill_browser_processes_only (mkKiller false verb') procs)
             = Return n -> n <= m).
Proof.
  split; [apply dry_run_kills_nothing|].
  intros m Hm. pose proof (dry_run_returned _ _ _ Hm) as ->.
  apply sweep_returns in Hm as [Ed _].
  pose proof (completed_all_named _ _ Ed) as Named.
  split; [reflexivity|]. split; [split|].
  - intros H p Hp. apply sweep_returns in H as [_ H].
    assert (P : counts (mkKiller false verb') p = is_target p).
    { apply (count_eq_pointwise _ _ procs);
        [apply counts_target | now symmetry | exact Hp]. }
    unfold counts, raised_in_try in P. cbn [dry_run] in P.
    destruct (try_raises p) eqn:R; [|reflexivity].
    unfold try_raises in R. destruct (is_target p) eqn:T; [|discriminate R].
    destruct (target_named p T) as [proc_name N]. rewrite N in P.
    discriminate P.
  - intros H.
    assert (E : loop_escapes (mkKiller false verb') procs = None).
    { apply loop_escapes_none. intros p Hp.
      specialize (Named p Hp). unfold has_name in Named.
      unfold escapes, raised_in_try. cbn [dry_run].
      destruct (name p); [|discriminate Named]. now rewrite (H p Hp). }
    rewrite (sweep_completes _ _ E). f_equal. apply count_ext.
    intros p Hp. specialize (Named p Hp). unfold has_name in Named.
    unfold counts, raised_in_try. cbn [dry_run].
    destruct (name p); [|discriminate Named].
    rewrite (H p Hp). cbn. now rewrite andb_true_r.
  - intros n Hn. apply sweep_returns in Hn as [_ ->].
    apply count_le, counts_target.
Qed.

Lemma dry_run_law_witness :
  fst (kill_browser_processes_only (mkKiller false true)
         [chrome_ok; node_server; chrome_plain])
  = Return 1.
Proof.
  apply (proj2 (proj1 (proj2 (proj2 (dry_run_law false true
                  [chrome_ok; node_server; chrome_plain]) 1 eq_refl)))).
  intros p [<-|[<-|[<-|[]]]]; reflexivity.
Defined.

(** C4, as the specification states it, fails: the profile marker is
    searched for in the command line as it is written.  A process named
    [chrome] whose command line has the marker in upper case is a target under
    the rule that ignores case, and the source does not take it for one. *)
Lemma profile_marker_is_case_sensitive :
  let proc_name := "chrome" in
  let cmdline := "chrome --user-data-dir=/tmp/MCP-CHROME-PROFILE-1" in
  browser_target_nocase proc_name cmdline = true
  /\ is_playwright_chrome proc_name cmdline = false
  /\ classify_nocase proc_name cmdline = Target
  /\ classify proc_name cmdline = Ignored.
Proof. repeat split. Qed.

(** C4, amended. The two tests against the name ignore case: the browser
    test looks for [chrome] and the server test for [node] in the name without
    regard to case (the exact test for [Google Chrome] adds nothing), so the
    classification sees the name only through its lower-casing.  The tests
    against the command line are exact: the profile marker and the two server
    markers are looked for as written.  On a command line without upper-case
    letters the source's rule and the rule that ignores case agree. *)
Theorem matching_case_rule (proc_name cmdline : string) :
  is_playwright_chrome proc_name cmdline
  = Str.contains_nocase "chrome" proc_name && ("mcp-chrome-profile" in_ cmdline)
  /\ is_nodejs_server proc_name cmdline
     = Str.contains_nocase "node" proc_name
       && (("mcp-server-playwright" in_ cmdline) || ("playwright" in_ cmdline))
  /\ (forall other_name,
        Str.lower other_name = Str.lower proc_name ->
        classify other_name cmdline = classify proc_name cmdline)
  /\ (Str.lower cmdline = cmdline ->
      classify proc_name cmdline = classify_nocase proc_name cmdline).
Proof.
  assert (B : forall n c, is_playwright_chrome n c
                = Str.contains_nocase "chrome" n && ("mcp-chrome-profile" in_ c)).
  { intros n c. unfold is_playwright_chrome.
    now rewrite google_chrome_absorbed. }
  assert (S : forall n c, is_nodejs_server n c
                = Str.contains_nocase "node" n
                  && (("mcp-server-playwright" in_ c) || ("playwright" in_ c)))
    by reflexivity.
  split; [apply B|]. split; [apply S|]. split.
  - intros other E. unfold classify. rewrite !B, !S.
    now rewrite !(StrFacts.contains_nocase_blind _ _ _ E).
  - intros L. unfold classify, classify_nocase, browser_target_nocase,
      protected_server_nocase.
    rewrite B, S.
    replace (Str.contains_nocase "chrome" proc_name
             || Str.contains_nocase "Google Chrome" proc_name)
      with (Str.contains_nocase "chrome" proc_name).
    + assert (N : forall marker, Str.contains_nocase marker cmdline
                    = (Str.lower marker in_ cmdline))
        by (intros marker; unfold Str.contains_nocase; now rewrite L).
      rewrite !N. reflexivity.
    + destruct (Str.contains_nocase "Google Chrome" proc_name) eqn:G;
        [|now rewrite orb_false_r].
      unfold Str.contains_nocase in *.
      assert (T : ("chrome" in_ Str.lower "Google Chrome") = true)
        by reflexivity.
      change (Str.lower "chrome") with "chrome".
      rewrite (StrFacts.contains_trans _ _ _ T G). reflexivity.
Qed.

Lemma matching_case_rule_witness :
  classify "CHROME.EXE" "chrome --user-data-dir=/tmp/mcp-chrome-profile-1"
  = classify "chrome.exe" "chrome --user-data-dir=/tmp/mcp-chrome-profile-1"
  /\ classify "chrome.exe" "chrome --user-data-dir=/tmp/mcp-chrome-profile-1"
     = classify_nocase "chrome.exe"
         "chrome --user-data-dir=/tmp/mcp-chrome-profile-1".
Proof.
  split.
  - apply (proj1 (proj2 (proj2 (matching_case_rule "chrome.exe"
             "chrome --user-data-dir=/tmp/mcp-chrome-profile-1")))).
    reflexivity.
  - apply (proj2 (proj2 (proj2 (matching_case_rule "chrome.exe"
             "chrome --user-data-dir=/tmp/mcp-chrome-profile-1")))).
    reflexivity.
Defined.

(** C5. The code at the input on which the claim fails: classification is
    not total.  A record that [psutil] hands over without a name has no
    classification and no category: line 39 calls [.lower()] on [None] and
    the [try] block raises [AttributeError] before either test is computed,
    whatever the pid, the argument vector and the flags. *)
Theorem unnamed_record_has_no_classification (proc_pid : Z)
  (argv : option (list string)) (k w : option exn) :
  let p := mkProcess proc_pid None argv k w in
  classification p = Raise AttributeError
  /\ category p = Raise AttributeError
  /\ is_target p = false
  /\ forall self s, try_body self p s = (Raise AttributeError, s).
Proof. repeat split. Qed.

(** C9. The server test is the test "[node] occurs in the lower-cased name
    and [playwright] occurs in the command line": [playwright] is a substring
    of [mcp-server-playwright], so the first alternative of line 46 never
    changes the result. *)
Theorem server_test_simplifies (proc_name cmdline : string) :
  is_nodejs_server proc_name cmdline
  = ("node" in_ Str.lower proc_name) && ("playwright" in_ cmdline).
Proof.
  unfold is_nodejs_server. now rewrite server_marker_absorbed.
Qed.

(** C6. The code at the input on which the claim fails: a process that
    [psutil] was not allowed to inspect has no name in [proc.info], and the
    sweep does not recover from it.  For such a record the [try] statement
    raises [AttributeError], which no [except] clause names; a sweep that
    comes to it, dry run or not, raises it without looking at the processes
    that follow and without a summary line, and [main] exits with 2. *)
Theorem denied_inspection_aborts_the_sweep (self : BrowserProcessKiller)
  (rest : list Process) :
  raised_in_try self denied_inspection = Some AttributeError
  /\ handled AttributeError = false
  /\ (forall s, try_statement self denied_inspection s
                = (Raise AttributeError, s))
  /\ kill_browser_processes_only self (denied_inspection :: rest)
     = (Raise AttributeError, [])
  /\ main (dry_run self) (verbose self) (denied_inspection :: rest)
     = (2, [Print (FailedLine AttributeError)]).
Proof.
  assert (S : kill_browser_processes_only self (denied_inspection :: rest)
              = (Raise AttributeError, []))
    by now apply sweep_meets_unnamed.
  split; [reflexivity|]. split; [reflexivity|]. split; [|split].
  - intros s. rewrite try_statement_spec. cbn. tidy_state. reflexivity.
  - exact S.
  - unfold main. destruct self as [dry verb]. cbn [dry_run verbose].
    now rewrite S.
Qed.

(** C7. The count a sweep returns is at most the number of processes of the
    snapshot that are classified Target (and it is not negative). *)
Theorem killed_count_bounded (self : BrowserProcessKiller)
  (procs : list Process) (n : Z) :
  fst (kill_browser_processes_only self procs) = Return n ->
  0 <= n <= count is_target procs.
Proof.
  intros H. apply sweep_returns in H as [_ ->]. split.
  - apply count_nonneg.
  - apply count_le, counts_target.
Qed.

Lemma killed_count_bounded_witness :
  0 <= 1 <= count is_target
             [chrome_ok; chrome_stuck; node_server; chrome_gone; chrome_plain].
Proof.
  apply (killed_count_bounded (mkKiller false false)
           [chrome_ok; chrome_stuck; node_server; chrome_gone; chrome_plain]).
  reflexivity.
Defined.



(** C10. The code at the input on which the claim fails: a record that was
    denied inspection has neither argument vector nor name.  Its command line
    is taken to be the empty string, as the claim says, and [kill()] is never
    called on it; but it is not classified Ignored, it has no classification,
    and the sweep fails on it: the [try] statement raises [AttributeError]
    and so does any sweep over a snapshot that starts with it. *)
Theorem unavailable_cmdline_and_name_fails (self : BrowserProcessKiller)
  (rest : list Process) :
  cmdline denied_inspection = None
  /\ cmdline_text (cmdline denied_inspection) = ""
  /\ classification denied_inspection <> Return Ignored
  /\ (forall s, fst (try_statement self denied_inspection s)
                = Raise AttributeError)
  /\ fst (kill_browser_processes_only self (denied_inspection :: rest))
     = Raise AttributeError
  /\ kill_calls (snd (kill_browser_processes_only self
                        (denied_inspection :: rest))) = [].
Proof.
  split; [reflexivity|]. split; [reflexivity|]. split; [discriminate|].
  split; [|split].
  - intros s. rewrite try_statement_spec. reflexivity.
  - now rewrite sweep_meets_unnamed.
  - now rewrite sweep_meets_unnamed.
Qed.

(** * Further properties of the sweep and of [main] *)

(** ** Traces, piece by piece *)

Lemma os_calls_app (t1 t2 : list Event) :
  os_calls (t1 ++ t2) = (os_calls t1 ++ os_calls t2)%list.
Proof.
  induction t1 as [|[l|p r|p r] t1 IH]; cbn [os_calls List.app];
    now rewrite ?IH.
Qed.

Lemma printed_app (t1 t2 : list Event) :
  printed (t1 ++ t2) = (printed t1 ++ printed t2)%list.
Proof.
  induction t1 as [|[l|p r|p r] t1 IH]; cbn [printed List.app];
    now rewrite ?IH.
Qed.

Lemma summaries_app (l1 l2 : list Line) :
  summaries (l1 ++ l2) = (summaries l1 ++ summaries l2)%list.
Proof.
  induction l1 as [|[] l1 IH]; cbn [summaries List.app]; now rewrite ?IH.
Qed.

Lemma announced_app (l1 l2 : list Line) :
  announced (l1 ++ l2) = (announced l1 ++ announced l2)%list.
Proof.
  induction l1 as [|[] l1 IH]; cbn [announced List.app]; now rewrite ?IH.
Qed.

Lemma timeouts_app (l1 l2 : list Line) :
  timeouts (l1 ++ l2) = (timeouts l1 ++ timeouts l2)%list.
Proof.
  induction l1 as [|[] l1 IH]; cbn [timeouts List.app]; now rewrite ?IH.
Qed.

(** What one iteration calls. *)
Lemma os_calls_iteration (self : BrowserProcessKiller) (p : Process) :
  os_calls (try_events self p ++ except_events self p)
  = if is_target p && negb (dry_run self) then calls_on p else [].
Proof. unfold calls_on. iteration_cases self p. Qed.

(** What one iteration prints. *)
Lemma printed_iteration (self : BrowserProcessKiller) (p : Process) :
  printed (try_events self p ++ except_events self p)
  = ((if is_target p && verbose self then killing_line p else [])
     ++ (if timed_out p && negb (dry_run self) && verbose self
         then [TimeoutLine (pid p)] else []))%list.
Proof. unfold timed_out. iteration_cases self p. Qed.

(** ** The loop over a snapshot in two parts *)

Lemma loop_app (self : BrowserProcessKiller) (l1 l2 : list Process) :
  loop_escapes self l1 = None ->
  loop_escapes self (l1 ++ l2) = loop_escapes self l2
  /\ loop_count self (l1 ++ l2) = loop_count self l1 + loop_count self l2
  /\ loop_events self (l1 ++ l2)
     = (loop_events self l1 ++ loop_events self l2)%list.
Proof.
  induction l1 as [|a l1 IH];
    cbn [List.app loop_escapes loop_count loop_events]; intros E.
  - now repeat split.
  - destruct (escapes self a); [discriminate|].
    destruct (IH E) as (-> & -> & ->). repeat split; [lia|].
    now rewrite <- !List.app_assoc.
Qed.

(** The loop stops at the first process whose [try] statement lets an
    exception through. *)
Lemma loop_stops (self : BrowserProcessKiller) (l1 l2 : list Process)
  (p : Process) (e : exn) :
  loop_escapes self l1 = None -> escapes self p = Some e ->
  loop_escapes self (l1 ++ p :: l2) = Some e
  /\ loop_events self (l1 ++ p :: l2)
     = (loop_events self l1 ++ try_events self p ++ except_events self p)%list.
Proof.
  intros E1 Ep. destruct (loop_app self l1 (p :: l2) E1) as (-> & _ & ->).
  cbn [loop_escapes loop_events]. rewrite Ep.
  now rewrite List.app_nil_r.
Qed.

(** What a loop that runs to its end calls. *)
Lemma os_calls_loop (self : BrowserProcessKiller) (procs : list Process) :
  loop_escapes self procs = None ->
  os_calls (loop_events self procs)
  = if dry_run self then [] else flat_map calls_on (filter is_target procs).
Proof.
  induction procs as [|p rest IH];
    cbn [loop_escapes loop_events filter flat_map].
  - now destruct (dry_run self).
  - rewrite List.app_assoc, os_calls_app, os_calls_iteration.
    destruct (escapes self p); [discriminate|]. intros E. rewrite (IH E).
    destruct (is_target p), (dry_run self); cbn [andb negb flat_map List.app];
      reflexivity.
Qed.

Lemma kill_calls_os_calls (t : list Event) :
  kill_calls (os_calls t) = kill_calls t.
Proof.
  induction t as [|[l|p r|p r] t IH]; cbn [os_calls kill_calls];
    now rewrite ?IH.
Qed.

Lemma kill_calls_calls_on (l : list Process) :
  kill_calls (flat_map calls_on l) = l.
Proof.
  induction l as [|p l IH]; [reflexivity|].
  cbn [flat_map]. rewrite kill_calls_app, IH. unfold calls_on.
  now destruct (kill_raises p).
Qed.

Lemma sweep_os_calls (self : BrowserProcessKiller) (procs : list Process) :
  os_calls (snd (kill_browser_processes_only self procs))
  = os_calls (loop_events self procs)
  /\ printed (snd (kill_browser_processes_only self procs))
     = (printed (loop_events self procs)
        ++ match loop_escapes self procs with
           | None => [SummaryLine (loop_count self procs)]
           | Some _ => []
           end)%list.
Proof.
  rewrite sweep_spec. destruct (loop_escapes self procs); cbn [snd].
  - now rewrite List.app_nil_r.
  - rewrite os_calls_app, printed_app. cbn. now rewrite List.app_nil_r.
Qed.

(** The exit code of [main] from what the sweep gives. *)
Lemma main_code (dry verb : bool) (procs : list Process) :
  fst (main dry verb procs)
  = match fst (kill_browser_processes_only (mkKiller dry verb) procs) with
    | Return _ => 0
    | Raise KeyboardInterrupt => 1
    | Raise _ => 2
    end.
Proof.
  unfold main. destruct (kill_browser_processes_only _ procs) as [[n|e] t];
    cbn [fst]; [now destruct (n >? 0) | now destruct e].
Qed.

(** [main] adds lines to what the sweep did, and no call. *)
Lemma main_os_calls (dry verb : bool) (procs : list Process) :
  os_calls (snd (main dry verb procs))
  = os_calls (snd (kill_browser_processes_only (mkKiller dry verb) procs)).
Proof.
  unfold main. destruct (kill_browser_processes_only _ procs) as [[n|e] t];
    cbn [snd]; [destruct (n >? 0) | destruct e];
    cbn [snd]; rewrite os_calls_app; cbn; now rewrite List.app_nil_r.
Qed.

Lemma os_calls_iteration_then (self : BrowserProcessKiller) (p : Process)
  (t : list Event) :
  os_calls (try_events self p ++ except_events self p ++ t)
  = ((if is_target p && negb (dry_run self) then calls_on p else [])
     ++ os_calls t)%list.
Proof. now rewrite List.app_assoc, os_calls_app, os_calls_iteration. Qed.

Lemma loop_verbose (dry verb verb' : bool) (procs : list Process) :
  loop_escapes (mkKiller dry verb) procs = loop_escapes (mkKiller dry verb') procs
  /\ loop_count (mkKiller dry verb) procs = loop_count (mkKiller dry verb') procs
  /\ os_calls (loop_events (mkKiller dry verb) procs)
     = os_calls (loop_events (mkKiller dry verb') procs).
Proof.
  induction procs as [|p rest (IHe & IHc & IHo)];
    cbn [loop_escapes loop_count loop_events]; [now repeat split|].
  rewrite !os_calls_iteration_then.
  change (escapes (mkKiller dry verb) p) with (escapes (mkKiller dry verb') p).
  change (counts (mkKiller dry verb) p) with (counts (mkKiller dry verb') p).
  cbn [dry_run]. rewrite IHe, IHc.
  destruct (escapes (mkKiller dry verb') p); [now repeat split|].
  now rewrite IHo.
Qed.

(** X1. The verbose flag changes what is printed and nothing else: on the
    same snapshot the sweep returns or raises the same, makes the same calls
    on the same processes in the same order, and [main] exits with the same
    code. *)
Theorem verbose_only_prints (dry verb verb' : bool) (procs : list Process) :
  fst (kill_browser_processes_only (mkKiller dry verb) procs)
  = fst (kill_browser_processes_only (mkKiller dry verb') procs)
  /\ os_calls (snd (kill_browser_processes_only (mkKiller dry verb) procs))
     = os_calls (snd (kill_browser_processes_only (mkKiller dry verb') procs))
  /\ fst (main dry verb procs) = fst (main dry verb' procs)
  /\ os_calls (snd (main dry verb procs))
     = os_calls (snd (main dry verb' procs)).
Proof.
  destruct (loop_verbose dry verb verb' procs) as (E & C & O).
  assert (R : fst (kill_browser_processes_only (mkKiller dry verb) procs)
              = fst (kill_browser_processes_only (mkKiller dry verb') procs))
    by (rewrite !sweep_result; now rewrite E, C).
  assert (T : os_calls (snd (kill_browser_processes_only
                               (mkKiller dry verb) procs))
              = os_calls (snd (kill_browser_processes_only
                                 (mkKiller dry verb') procs)))
    by (now rewrite !(proj1 (sweep_os_calls _ _))).
  repeat split.
  - exact R.
  - exact T.
  - now rewrite !main_code, R.
  - now rewrite !main_os_calls.
Qed.

Lemma loop_prints_no_summary (self : BrowserProcessKiller)
  (procs : list Process) :
  summaries (printed (loop_events self procs)) = [].
Proof.
  induction procs as [|p rest IH]; cbn [loop_events]; [reflexivity|].
  rewrite List.app_assoc, printed_app, summaries_app, printed_iteration.
  rewrite summaries_app. unfold killing_line.
  destruct (escapes self p); [|rewrite IH];
    destruct (_ && verbose self), (_ && verbose self), (name p);
    reflexivity.
Qed.

Lemma quiet_loop_prints_nothing (self : BrowserProcessKiller)
  (procs : list Process) :
  verbose self = false -> printed (loop_events self procs) = [].
Proof.
  intros Q. induction procs as [|p rest IH]; cbn [loop_events]; [reflexivity|].
  rewrite List.app_assoc, printed_app, printed_iteration, Q, !andb_false_r.
  destruct (escapes self p); [reflexivity | exact IH].
Qed.

(** X2. A sweep that returns prints one summary line, and it shows the count
    that is returned; a sweep that raises prints no summary line.  Without
    the verbose flag the sweep prints nothing else. *)
Theorem summary_shows_the_result (self : BrowserProcessKiller)
  (procs : list Process) :
  let run := kill_browser_processes_only self procs in
  summaries (printed (snd run))
  = match fst run with Return n => [n] | Raise _ => [] end
  /\ (verbose self = false ->
      printed (snd run) = map SummaryLine (summaries (printed (snd run)))).
Proof.
  cbv zeta. rewrite (proj2 (sweep_os_calls self procs)), sweep_result.
  rewrite summaries_app, loop_prints_no_summary. split.
  - now destruct (loop_escapes self procs).
  - intros Q. rewrite (quiet_loop_prints_nothing _ _ Q).
    now destruct (loop_escapes self procs).
Qed.

Lemma summary_shows_the_result_witness :
  printed (snd (kill_browser_processes_only (mkKiller false false)
                  [chrome_ok; chrome_gone; node_server]))
  = map SummaryLine
      (summaries (printed (snd (kill_browser_processes_only
                                  (mkKiller false false)
                                  [chrome_ok; chrome_gone; node_server])))).
Proof.
  apply (proj2 (summary_shows_the_result (mkKiller false false)
                  [chrome_ok; chrome_gone; node_server])).
  reflexivity.
Defined.

(** X3. A sweep that is not a dry run and returns has called [kill()] once
    on every target of the snapshot, in the order of the snapshot, each time
    followed at once by [wait()] on the same process when [kill()] returned
    and by nothing when it raised; it has made no other call. *)
Theorem completed_sweep_calls (verb : bool) (procs : list Process) (n : Z) :
  fst (kill_browser_processes_only (mkKiller false verb) procs) = Return n ->
  os_calls (snd (kill_browser_processes_only (mkKiller false verb) procs))
  = flat_map calls_on (filter is_target procs)
  /\ kill_calls (snd (kill_browser_processes_only (mkKiller false verb) procs))
     = filter is_target procs.
Proof.
  intros H. apply sweep_returns in H as [E _].
  assert (O : os_calls (snd (kill_browser_processes_only
                               (mkKiller false verb) procs))
              = flat_map calls_on (filter is_target procs)).
  { rewrite (proj1 (sweep_os_calls _ _)). now rewrite (os_calls_loop _ _ E). }
  split; [exact O|].
  now rewrite <- kill_calls_os_calls, O, kill_calls_calls_on.
Qed.

Lemma completed_sweep_calls_witness :
  os_calls (snd (kill_browser_processes_only (mkKiller false true)
                   [chrome_ok; node_server; chrome_gone; chrome_stuck]))
  = flat_map calls_on
      (filter is_target [chrome_ok; node_server; chrome_gone; chrome_stuck])
  /\ kill_calls (snd (kill_browser_processes_only (mkKiller false true)
                        [chrome_ok; node_server; chrome_gone; chrome_stuck]))
     = filter is_target [chrome_ok; node_server; chrome_gone; chrome_stuck].
Proof.
  apply (completed_sweep_calls true
           [chrome_ok; node_server; chrome_gone; chrome_stuck] 1).
  reflexivity.
Defined.

Lemma escapes_intro (self : BrowserProcessKiller) (p : Process) (e : exn) :
  raised_in_try self p = Some e -> handled e = false ->
  escapes self p = Some e.
Proof. unfold escapes. now intros -> ->. Qed.

(** X4. The sweep stops at the first exception that the [except] clauses do
    not name: when the processes before [p] are swept without one and the
    [try] block raises one for [p], the sweep raises it, and what it has done
    does not depend on the processes that follow [p] in the snapshot: none of
    them is looked at. *)
Theorem sweep_stops_at_first_escape (self : BrowserProcessKiller)
  (l1 l2 : list Process) (p : Process) (e : exn) (n : Z)
  (Hbefore : fst (kill_browser_processes_only self l1) = Return n)
  (Hraised : raised_in_try self p = Some e)
  (Hunhandled : handled e = false) :
  fst (kill_browser_processes_only self (l1 ++ p :: l2)) = Raise e
  /\ snd (kill_browser_processes_only self (l1 ++ p :: l2))
     = snd (kill_browser_processes_only self (l1 ++ [p]))
  /\ forall q,
       In q (kill_calls (snd (kill_browser_processes_only self
                                (l1 ++ p :: l2)))) ->
       In q (l1 ++ [p]).
Proof.
  apply sweep_returns in Hbefore as [E1 _].
  pose proof (escapes_intro _ _ _ Hraised Hunhandled) as Ep.
  destruct (loop_stops self l1 l2 p e E1 Ep) as [Ea Ta].
  destruct (loop_stops self l1 [] p e E1 Ep) as [Eb Tb].
  assert (S : snd (kill_browser_processes_only self (l1 ++ p :: l2))
              = snd (kill_browser_processes_only self (l1 ++ [p]))).
  { rewrite !sweep_spec, Ea, Eb. cbn [snd]. now rewrite Ta, Tb. }
  repeat split.
  - now rewrite sweep_result, Ea.
  - exact S.
  - intros q H. rewrite S in H.
    now apply sweep_kills_targets_only in H as (_ & H & _).
Qed.

Lemma sweep_stops_at_first_escape_witness :
  fst (kill_browser_processes_only (mkKiller false false)
         ([chrome_ok; chrome_gone] ++ chrome_interrupted :: [chrome_ok]))
  = Raise KeyboardInterrupt
  /\ snd (kill_browser_processes_only (mkKiller false false)
            ([chrome_ok; chrome_gone] ++ chrome_interrupted :: [chrome_ok]))
     = snd (kill_browser_processes_only (mkKiller false false)
              ([chrome_ok; chrome_gone] ++ [chrome_interrupted]))
  /\ forall q,
       In q (kill_calls (snd (kill_browser_processes_only
                                (mkKiller false false)
                                ([chrome_ok; chrome_gone]
                                 ++ chrome_interrupted :: [chrome_ok])))) ->
       In q ([chrome_ok; chrome_gone] ++ [chrome_interrupted]).
Proof.
  apply (sweep_stops_at_first_escape (mkKiller false false)
           [chrome_ok; chrome_gone] [chrome_ok] chrome_interrupted
           KeyboardInterrupt 1); reflexivity.
Defined.

(** X6. Sweeping a snapshot in two parts: when the sweep of the first part
    returns [n1], the sweep of the two parts one after the other returns [n1]
    more than the sweep of the second part returns, or raises what that one
    raises, and it makes the calls of the first sweep followed by the calls of
    the second. *)
Theorem sweep_of_concatenation (self : BrowserProcessKiller)
  (l1 l2 : list Process) (n1 : Z) :
  fst (kill_browser_processes_only self l1) = Return n1 ->
  fst (kill_browser_processes_only self (l1 ++ l2))
  = match fst (kill_browser_processes_only self l2) with
    | Return n2 => Return (n1 + n2)
    | Raise e => Raise e
    end
  /\ os_calls (snd (kill_browser_processes_only self (l1 ++ l2)))
     = (os_calls (snd (kill_browser_processes_only self l1))
        ++ os_calls (snd (kill_browser_processes_only self l2)))%list.
Proof.
  intros H. rewrite sweep_result in H.
  destruct (loop_escapes self l1) eqn:E1; [discriminate H|].
  injection H as <-.
  destruct (loop_app self l1 l2 E1) as (Ee & Ec & Ev). split.
  - rewrite !sweep_result, Ee, Ec. now destruct (loop_escapes self l2).
  - rewrite !(proj1 (sweep_os_calls _ _)), Ev. apply os_calls_app.
Qed.

Lemma sweep_of_concatenation_witness :
  fst (kill_browser_processes_only (mkKiller false false)
         ([chrome_ok; chrome_gone] ++ [chrome_ok; chrome_stuck; chrome_ok]))
  = match fst (kill_browser_processes_only (mkKiller false false)
                 [chrome_ok; chrome_stuck; chrome_ok]) with
    | Return n2 => Return (1 + n2)
    | Raise e => Raise e
    end
  /\ os_calls (snd (kill_browser_processes_only (mkKiller false false)
                      ([chrome_ok; chrome_gone]
                       ++ [chrome_ok; chrome_stuck; chrome_ok])))
     = (os_calls (snd (kill_browser_processes_only (mkKiller false false)
                         [chrome_ok; chrome_gone]))
        ++ os_calls (snd (kill_browser_processes_only (mkKiller false false)
                            [chrome_ok; chrome_stuck; chrome_ok])))%list.
Proof.
  apply (sweep_of_concatenation (mkKiller false false)
           [chrome_ok; chrome_gone] [chrome_ok; chrome_stuck; chrome_ok] 1).
  reflexivity.
Defined.

(** ** Markers and argument vectors *)

Module JoinFacts.
Import Str StrFacts.

Lemma contains_app_l (m a b : string) :
  contains m a = true -> contains m (a ++ b) = true.
Proof.
  intros H. destruct (contains_inv _ _ H) as (pre & post & ->).
  rewrite !app_assoc. apply contains_intro.
Qed.

Lemma contains_app_r (m a b : string) :
  contains m b = true -> contains m (a ++ b) = true.
Proof.
  intros H. destruct (contains_inv _ _ H) as (pre & post & ->).
  rewrite <- app_assoc. apply contains_intro.
Qed.

(** A word that starts a text and has no [c] in it ends before the first
    [c] of the text. *)
Lemma startswith_before (c : ascii) (m a b : string) :
  has_char c m = false ->
  startswith m (a ++ String c b) = true -> startswith m a = true.
Proof.
  revert a. induction m as [|x m IH]; intros a N H; [now destruct a|].
  cbn [has_char] in N. apply orb_false_elim in N as [Nx Nm].
  destruct a as [|y a]; cbn in H |- *.
  - rewrite Ascii.eqb_sym, Nx in H. discriminate H.
  - apply andb_prop in H as [-> H]. now apply IH.
Qed.

(** A word without [c] that occurs in [a ++ c ++ b] occurs in [a] or in
    [b]. *)
Lemma contains_around (c : ascii) (m a b : string) :
  has_char c m = false ->
  contains m (a ++ String c b) = true ->
  contains m a = true \/ contains m b = true.
Proof.
  intros N. induction a as [|y a IH]; intros H.
  - change ("" ++ String c b) with (String c b) in H. cbn [contains] in H.
    apply orb_prop in H as [H|H]; [left | now right].
    apply contains_startswith.
    apply (startswith_before c m "" b N H).
  - change (String y a ++ String c b) with (String y (a ++ String c b)) in H.
    cbn [contains] in H. apply orb_prop in H as [H|H].
    + left. apply contains_startswith.
      apply (startswith_before c m (String y a) b N H).
    + destruct (IH H) as [K|K]; [left | now right].
      cbn [contains]. rewrite K. apply orb_true_r.
Qed.

(** A word without a space, and not empty, occurs in the arguments joined
    by spaces exactly when it occurs in one of them. *)
Lemma contains_join (m : string) (l : list string) :
  m <> "" -> has_char " " m = false ->
  contains m (join " " l) = existsb (contains m) l.
Proof.
  intros Ne N. induction l as [|x [|y rest] IH].
  - cbn. now apply contains_empty_hay.
  - cbn [join existsb]. now rewrite orb_false_r.
  - change (join " " (x :: y :: rest))
      with (x ++ String " " (join " " (y :: rest))).
    change (existsb (contains m) (x :: y :: rest))
      with (contains m x || existsb (contains m) (y :: rest)).
    rewrite <- IH.
    destruct (contains m x) eqn:Cx.
    + cbn [orb]. now apply contains_app_l.
    + cbn [orb]. destruct (contains m (join " " (y :: rest))) eqn:Cr.
      * now apply (contains_app_r m x (String " " _)), (contains_app_r m " ").
      * destruct (contains m (x ++ String " " (join " " (y :: rest)))) eqn:C;
          [|reflexivity].
        apply (contains_around " " m _ _ N) in C as [C|C]; congruence.
Qed.

End JoinFacts.

Lemma cmdline_text_arguments (p : Process) :
  cmdline_text (cmdline p) = Str.join " " (arguments p).
Proof. unfold cmdline_text, arguments. now destruct (cmdline p) as [[|]|]. Qed.

Lemma marker_in_arguments (m : string) (p : Process) :
  m <> "" -> has_char " " m = false ->
  (m in_ cmdline_text (cmdline p)) = existsb (Str.contains m) (arguments p).
Proof.
  intros Ne N. rewrite cmdline_text_arguments.
  now apply JoinFacts.contains_join.
Qed.

(** The two tests of lines 38-47 on the name and the arguments. *)
Lemma tests_arguments (p : Process) (proc_name : string) :
  is_playwright_chrome proc_name (cmdline_text (cmdline p))
  = ("chrome" in_ Str.lower proc_name)
    && existsb (Str.contains "mcp-chrome-profile") (arguments p)
  /\ is_nodejs_server proc_name (cmdline_text (cmdline p))
     = ("node" in_ Str.lower proc_name)
       && existsb (Str.contains "playwright") (arguments p).
Proof.
  unfold is_playwright_chrome, is_nodejs_server.
  rewrite google_chrome_absorbed, server_marker_absorbed.
  rewrite (marker_in_arguments "mcp-chrome-profile" p)
    by first [discriminate | reflexivity].
  rewrite (marker_in_arguments "playwright" p)
    by first [discriminate | reflexivity].
  split; reflexivity.
Qed.

Lemma is_target_arguments (p : Process) :
  is_target p
  = name_contains "chrome" p
    && existsb (Str.contains "mcp-chrome-profile") (arguments p)
    && negb (name_contains "node" p
             && existsb (Str.contains "playwright") (arguments p)).
Proof.
  rewrite is_target_tests. unfold name_contains.
  destruct (name p) as [proc_name|]; [|reflexivity].
  destruct (tests_arguments p proc_name) as [-> ->]. reflexivity.
Qed.

(** X7. The command line is the arguments joined by single spaces, and no
    marker has a space in it, so each marker test on the command line is the
    test "some argument contains the marker": a marker never matches across
    two arguments.  A record without an argument vector has no argument. *)
Theorem markers_match_within_one_argument (p : Process) :
  let text := cmdline_text (cmdline p) in
  ("mcp-chrome-profile" in_ text)
  = existsb (Str.contains "mcp-chrome-profile") (arguments p)
  /\ ("mcp-server-playwright" in_ text)
     = existsb (Str.contains "mcp-server-playwright") (arguments p)
  /\ ("playwright" in_ text)
     = existsb (Str.contains "playwright") (arguments p)
  /\ is_target p
     = name_contains "chrome" p
       && existsb (Str.contains "mcp-chrome-profile") (arguments p)
       && negb (name_contains "node" p
                && existsb (Str.contains "playwright") (arguments p)).
Proof.
  cbv zeta. repeat split.
  1-3: apply marker_in_arguments; [discriminate | reflexivity].
  apply is_target_arguments.
Qed.

Lemma existsb_permutation {A} (f : A -> bool) (l l' : list A) :
  Permutation l l' -> existsb f l = existsb f l'.
Proof.
  intros P. apply eq_true_iff_eq. rewrite !existsb_exists.
  split; intros (x & Hx & Fx); exists x; split; try exact Fx.
  - now apply (Permutation_in _ P).
  - now apply (Permutation_in _ (Permutation_sym P)).
Qed.

(** X8. The order of the arguments does not matter: two records with the same
    name whose argument vectors are permutations of each other pass or fail
    each of the two tests together, and get the same classification and the
    same category. *)
Theorem argument_order_is_irrelevant (p q : Process)
  (Hname : name p = name q)
  (Hperm : Permutation (arguments p) (arguments q)) :
  (forall proc_name,
     is_playwright_chrome proc_name (cmdline_text (cmdline p))
     = is_playwright_chrome proc_name (cmdline_text (cmdline q))
     /\ is_nodejs_server proc_name (cmdline_text (cmdline p))
        = is_nodejs_server proc_name (cmdline_text (cmdline q)))
  /\ classification p = classification q
  /\ category p = category q.
Proof.
  assert (T : forall proc_name,
     is_playwright_chrome proc_name (cmdline_text (cmdline p))
     = is_playwright_chrome proc_name (cmdline_text (cmdline q))
     /\ is_nodejs_server proc_name (cmdline_text (cmdline p))
        = is_nodejs_server proc_name (cmdline_text (cmdline q))).
  { intros n. destruct (tests_arguments p n) as [-> ->].
    destruct (tests_arguments q n) as [-> ->].
    now rewrite !(existsb_permutation _ _ _ Hperm). }
  split; [exact T|]. split.
  - unfold classification, classify. rewrite <- Hname.
    destruct (name p) as [n|]; [|reflexivity].
    now destruct (T n) as [-> ->].
  - unfold category. cbv zeta. rewrite <- Hname.
    destruct (name p) as [n|]; [|reflexivity].
    now destruct (T n) as [-> ->].
Qed.

Lemma argument_order_is_irrelevant_witness :
  classification
    (mkProcess 7 (Some "chrome")
       (Some ["--profile=mcp-chrome-profile"; "cli.js"; "playwright"])
       None None)
  = classification
      (mkProcess 8 (Some "chrome")
         (Some ["playwright"; "--profile=mcp-chrome-profile"; "cli.js"])
         None None).
Proof.
  apply (argument_order_is_irrelevant
           (mkProcess 7 (Some "chrome")
              (Some ["--profile=mcp-chrome-profile"; "cli.js"; "playwright"])
              None None)
           (mkProcess 8 (Some "chrome")
              (Some ["playwright"; "--profile=mcp-chrome-profile"; "cli.js"])
              None None)).
  - reflexivity.
  - cbn [arguments cmdline].
    apply Permutation_sym,
      (Permutation_cons_app ["--profile=mcp-chrome-profile"; "cli.js"] []).
    rewrite List.app_nil_r. apply Permutation_refl.
Defined.

(** X9. What the sweep never does: [kill()] is only called in a sweep that
    is not a dry run, on a process of the snapshot whose name contains
    [chrome] in some case and one of whose arguments contains the profile
    marker, and which does not have both [node] in its name and [playwright]
    in an argument.  A browser outside the automation profile, and a process
    without an argument vector, are never killed. *)
Theorem only_profile_browsers_are_killed (self : BrowserProcessKiller)
  (procs : list Process) (p : Process) :
  In p (kill_calls (snd (kill_browser_processes_only self procs))) ->
  dry_run self = false
  /\ In p procs
  /\ (exists proc_name,
        name p = Some proc_name
        /\ ("chrome" in_ Str.lower proc_name) = true
        /\ (("node" in_ Str.lower proc_name) = false
            \/ forall a, In a (arguments p) -> ("playwright" in_ a) = false))
  /\ (exists argv a,
        cmdline p = Some argv /\ In a argv
        /\ ("mcp-chrome-profile" in_ a) = true).
Proof.
  intros H. apply sweep_kills_targets_only in H as (D & I & T).
  split; [exact D|]. split; [exact I|].
  rewrite is_target_arguments in T. unfold name_contains in T.
  destruct (name p) as [proc_name|]; [|discriminate T].
  apply andb_prop in T as [T N]. apply andb_prop in T as [C M].
  split.
  - exists proc_name. split; [reflexivity|]. split; [exact C|].
    apply negb_true_iff, andb_false_iff in N as [N|N]; [now left | right].
    intros a Ha. destruct ("playwright" in_ a) eqn:E; [|reflexivity].
    rewrite <- N. symmetry. apply existsb_exists. now exists a.
  - apply existsb_exists in M as (a & Ha & Ma).
    unfold arguments in Ha. destruct (cmdline p) as [argv|]; [|destruct Ha].
    now exists argv, a.
Qed.

Lemma only_profile_browsers_are_killed_witness :
  dry_run (mkKiller false false) = false
  /\ In chrome_ok [node_server; chrome_ok]
  /\ (exists proc_name,
        name chrome_ok = Some proc_name
        /\ ("chrome" in_ Str.lower proc_name) = true
        /\ (("node" in_ Str.lower proc_name) = false
            \/ forall a, In a (arguments chrome_ok) ->
                         ("playwright" in_ a) = false))
  /\ (exists argv a,
        cmdline chrome_ok = Some argv /\ In a argv
        /\ ("mcp-chrome-profile" in_ a) = true).
Proof.
  apply (only_profile_browsers_are_killed (mkKiller false false)
           [node_server; chrome_ok] chrome_ok).
  left. reflexivity.
Defined.

(** ** What is printed *)

Lemma announced_iteration (self : BrowserProcessKiller) (p : Process) :
  announced (printed (try_events self p ++ except_events self p))
  = if is_target p && verbose self then [(name p, pid p)] else [].
Proof.
  rewrite printed_iteration, announced_app. unfold killing_line.
  destruct (is_target p) eqn:T.
  - destruct (target_named p T) as [proc_name ->].
    destruct (timed_out p && negb (dry_run self) && verbose self),
      (verbose self); reflexivity.
  - cbn [andb].
    destruct (timed_out p && negb (dry_run self) && verbose self);
      reflexivity.
Qed.

Lemma timeouts_iteration (self : BrowserProcessKiller) (p : Process) :
  timeouts (printed (try_events self p ++ except_events self p))
  = if timed_out p && negb (dry_run self) && verbose self
    then [pid p] else [].
Proof.
  rewrite printed_iteration, timeouts_app. unfold killing_line.
  destruct (is_target p && verbose self),
    (timed_out p && negb (dry_run self) && verbose self), (name p);
    reflexivity.
Qed.

(** In a verbose sweep that is not a dry run, line 51 is printed once for
    each call of [kill()]. *)
Lemma announced_loop_live (procs : list Process) :
  announced (printed (loop_events (mkKiller false true) procs))
  = map (fun p => (name p, pid p))
        (kill_calls (loop_events (mkKiller false true) procs)).
Proof.
  induction procs as [|p rest IH]; cbn [loop_events]; [reflexivity|].
  rewrite !List.app_assoc, printed_app, announced_app, kill_calls_app, map_app.
  rewrite announced_iteration, kill_calls_iteration. cbn [verbose dry_run negb].
  f_equal.
  - now destruct (is_target p).
  - destruct (escapes _ p); [reflexivity | exact IH].
Qed.

Lemma announced_loop (self : BrowserProcessKiller) (procs : list Process) :
  loop_escapes self procs = None ->
  announced (printed (loop_events self procs))
  = if verbose self
    then map (fun p => (name p, pid p)) (filter is_target procs) else [].
Proof.
  induction procs as [|p rest IH]; cbn [loop_escapes loop_events filter].
  - now destruct (verbose self).
  - rewrite List.app_assoc, printed_app, announced_app, announced_iteration.
    destruct (escapes self p); [discriminate|]. intros E. rewrite (IH E).
    destruct (is_target p), (verbose self); reflexivity.
Qed.

Lemma timeouts_loop (self : BrowserProcessKiller) (procs : list Process) :
  loop_escapes self procs = None ->
  timeouts (printed (loop_events self procs))
  = if negb (dry_run self) && verbose self
    then map pid (filter timed_out procs) else [].
Proof.
  induction procs as [|p rest IH]; cbn [loop_escapes loop_events filter].
  - now destruct (negb (dry_run self) && verbose self).
  - rewrite List.app_assoc, printed_app, timeouts_app, timeouts_iteration.
    destruct (escapes self p); [discriminate|]. intros E. rewrite (IH E).
    destruct (timed_out p), (dry_run self), (verbose self); reflexivity.
Qed.

Lemma sweep_announced (self : BrowserProcessKiller) (procs : list Process) :
  announced (printed (snd (kill_browser_processes_only self procs)))
  = announced (printed (loop_events self procs))
  /\ timeouts (printed (snd (kill_browser_processes_only self procs)))
     = timeouts (printed (loop_events self procs)).
Proof.
  rewrite (proj2 (sweep_os_calls self procs)), announced_app, timeouts_app.
  destruct (loop_escapes self procs); cbn; now rewrite !List.app_nil_r.
Qed.

(** X10. What the verbose flag announces.  A verbose dry run that returns
    has printed the line of line 51 for exactly the targets of the snapshot,
    in order.  A verbose sweep that is not a dry run prints it once for each
    call of [kill()] it makes, with the name and pid of that process.  So the
    processes a verbose dry run announces are the ones on which a sweep that
    is not a dry run calls [kill()], when that sweep returns. *)
Theorem verbose_announces_each_kill (verb : bool) (procs : list Process) :
  ((exists m, fst (kill_browser_processes_only (mkKiller true true) procs)
              = Return m) ->
   announced (printed (snd (kill_browser_processes_only
                              (mkKiller true true) procs)))
   = map (fun p => (name p, pid p)) (filter is_target procs))
  /\ announced (printed (snd (kill_browser_processes_only
                                (mkKiller false true) procs)))
     = map (fun p => (name p, pid p))
           (kill_calls (snd (kill_browser_processes_only
                               (mkKiller false true) procs)))
  /\ ((exists n, fst (kill_browser_processes_only (mkKiller false verb) procs)
                 = Return n) ->
      announced (printed (snd (kill_browser_processes_only
                                 (mkKiller true true) procs)))
      = map (fun p => (name p, pid p))
            (kill_calls (snd (kill_browser_processes_only
                                (mkKiller false verb) procs)))).
Proof.
  assert (D : loop_escapes (mkKiller true true) procs = None ->
              announced (printed (snd (kill_browser_processes_only
                                         (mkKiller true true) procs)))
              = map (fun p => (name p, pid p)) (filter is_target procs)).
  { intros E. rewrite (proj1 (sweep_announced _ _)).
    now rewrite (announced_loop _ _ E). }
  split; [|split].
  - intros [m H]. apply sweep_returns in H as [E _]. exact (D E).
  - rewrite (proj1 (sweep_announced _ _)), (proj1 (sweep_trace _ _)).
    apply announced_loop_live.
  - intros [n H]. apply sweep_returns in H as [E _].
    rewrite D
      by (apply dry_run_never_escapes; exact (completed_all_named _ _ E)).
    rewrite <- kill_calls_os_calls, (proj1 (sweep_os_calls _ _)).
    rewrite (os_calls_loop _ _ E). cbn [dry_run].
    now rewrite kill_calls_calls_on.
Qed.

Lemma verbose_announces_each_kill_witness :
  announced (printed (snd (kill_browser_processes_only (mkKiller true true)
                             [chrome_ok; node_server; chrome_gone])))
  = map (fun p => (name p, pid p))
        (kill_calls (snd (kill_browser_processes_only (mkKiller false false)
                            [chrome_ok; node_server; chrome_gone]))).
Proof.
  apply (proj2 (proj2 (verbose_announces_each_kill false
                         [chrome_ok; node_server; chrome_gone]))).
  exists 1. reflexivity.
Defined.

(** X11. In verbose mode a sweep that is not a dry run and returns prints
    the line of line 63 for exactly the targets for which the [try] block
    raised [TimeoutExpired], in order, with their pids; a dry run and a sweep
    without the verbose flag print none. *)
Theorem timeout_lines (self : BrowserProcessKiller) (procs : list Process)
  (n : Z) :
  fst (kill_browser_processes_only self procs) = Return n ->
  timeouts (printed (snd (kill_browser_processes_only self procs)))
  = if negb (dry_run self) && verbose self
    then map pid (filter timed_out procs) else [].
Proof.
  intros H. apply sweep_returns in H as [E _].
  rewrite (proj2 (sweep_announced _ _)). now apply timeouts_loop.
Qed.

Lemma timeout_lines_witness :
  timeouts (printed (snd (kill_browser_processes_only (mkKiller false true)
                            [chrome_stuck; chrome_ok; chrome_gone])))
  = if negb (dry_run (mkKiller false true)) && verbose (mkKiller false true)
    then map pid (filter timed_out [chrome_stuck; chrome_ok; chrome_gone])
    else [].
Proof.
  apply (timeout_lines (mkKiller false true)
           [chrome_stuck; chrome_ok; chrome_gone] 1).
  reflexivity.
Defined.

Lemma count_pos_existsb {A} (f : A -> bool) (l : list A) :
  (count f l >? 0) = existsb f l.
Proof.
  induction l as [|x l IH]; [reflexivity|].
  rewrite count_cons. cbn [existsb]. rewrite <- IH.
  pose proof (count_nonneg f l).
  destruct (f x); cbn [orb]; [|reflexivity].
  destruct (Z.gtb_spec (1 + count f l) 0); [reflexivity | lia].
Qed.

Lemma main_printed (dry verb : bool) (procs : list Process) (n : Z) :
  fst (kill_browser_processes_only (mkKiller dry verb) procs) = Return n ->
  printed (snd (main dry verb procs))
  = (printed (snd (kill_browser_processes_only (mkKiller dry verb) procs))
     ++ (if n >? 0 then [SuccessLine n; PreservedLine]
         else [NoneFoundLine]))%list.
Proof.
  unfold main. destruct (kill_browser_processes_only _ procs) as [r t].
  cbn [fst snd]. intros ->.
  destruct (n >? 0); cbn [snd]; now rewrite printed_app.
Qed.

(** X12. What [main] reports after the sweep.  When a sweep that is not a
    dry run returns, [main] prints the success line, with the number of
    targets whose [kill()] and [wait()] both returned, exactly when there is
    such a target; otherwise it prints that no browser process was found,
    also when targets were found and signalled and none was seen to exit.  A
    dry run reports the targets the same way, as killed, though it calls
    [kill()] on nothing.  The exit code is 0 in both cases. *)
Theorem main_report (verb : bool) (procs : list Process) (n : Z) :
  fst (kill_browser_processes_only (mkKiller false verb) procs) = Return n ->
  printed (snd (main false verb procs))
  = (printed (snd (kill_browser_processes_only (mkKiller false verb) procs))
     ++ (if existsb exit_confirmed procs
         then [SuccessLine (count exit_confirmed procs); PreservedLine]
         else [NoneFoundLine]))%list
  /\ printed (snd (main true verb procs))
     = (printed (snd (kill_browser_processes_only (mkKiller true verb) procs))
        ++ (if existsb is_target procs
            then [SuccessLine (count is_target procs); PreservedLine]
            else [NoneFoundLine]))%list
  /\ kill_calls (snd (main true verb procs)) = []
  /\ fst (main false verb procs) = 0
  /\ fst (main true verb procs) = 0.
Proof.
  intros H.
  assert (Hd : fst (kill_browser_processes_only (mkKiller true verb) procs)
               = Return (count is_target procs)).
  { apply dry_run_returns. pose proof H as H'.
    apply sweep_returns in H' as [E _]. exact (completed_all_named _ _ E). }
  repeat split.
  - rewrite (main_printed _ _ _ _ H). apply sweep_returns in H as [_ ->].
    rewrite (count_ext _ exit_confirmed procs)
      by (intros p _; apply counts_live).
    now rewrite count_pos_existsb.
  - rewrite (main_printed _ _ _ _ Hd). now rewrite count_pos_existsb.
  - rewrite <- kill_calls_os_calls, main_os_calls, kill_calls_os_calls.
    apply dry_run_kills_nothing.
  - now rewrite main_code, H.
  - now rewrite main_code, Hd.
Qed.

Lemma main_report_witness :
  printed (snd (main false false [chrome_stuck; chrome_gone]))
  = (printed (snd (kill_browser_processes_only (mkKiller false false)
                     [chrome_stuck; chrome_gone]))
     ++ (if existsb exit_confirmed [chrome_stuck; chrome_gone]
         then [SuccessLine (count exit_confirmed [chrome_stuck; chrome_gone]);
               PreservedLine]
         else [NoneFoundLine]))%list.
Proof.
  apply (proj1 (main_report false [chrome_stuck; chrome_gone] 0 eq_refl)).
Defined.

(** X13. The exit status of the script.  It is 0, 1 or 2.  It is 0 exactly
    when [psutil] is there and the sweep returns; 2 exactly when [psutil] is
    there and the sweep raises something other than [KeyboardInterrupt]; and
    1 in two cases, when [psutil] is missing and when [KeyboardInterrupt]
    comes out of the sweep.  Without [psutil] the script does nothing but
    print the error. *)
Theorem script_exit_status (psutil_installed dry verb : bool)
  (procs : list Process) :
  let code := fst (script psutil_installed dry verb procs) in
  let result := fst (kill_browser_processes_only (mkKiller dry verb) procs) in
  (code = 0 \/ code = 1 \/ code = 2)
  /\ (code = 0 <-> psutil_installed = true /\ exists n, result = Return n)
  /\ (code = 1 <-> psutil_installed = false \/ result = Raise KeyboardInterrupt)
  /\ (code = 2 <-> psutil_installed = true
                   /\ exists msg, result = Raise (OtherException msg))
  /\ (psutil_installed = false ->
      snd (script psutil_installed dry verb procs) = [PsutilMissingLine]).
Proof.
  cbv zeta.
  assert (C : fst (script psutil_installed dry verb procs)
              = if psutil_installed then fst (main dry verb procs) else 1).
  { unfold script. destruct psutil_installed; [|reflexivity].
    now destruct (main dry verb procs). }
  rewrite C, main_code. clear C.
  destruct psutil_installed.
  2: { repeat split; try (intros; discriminate); auto.
       - intros [H _]. discriminate H.
       - intros [H _]. discriminate H. }
  destruct (fst (kill_browser_processes_only (mkKiller dry verb) procs))
    as [n|e] eqn:R.
  - repeat split; try (intros; discriminate); auto.
    + now exists n.
    + intros [H|H]; discriminate H.
    + intros [_ [msg H]]. discriminate H.
  - assert (U : handled e = false).
    { rewrite sweep_result in R.
      destruct (loop_escapes _ procs) eqn:L; [|discriminate R].
      injection R as ->. now apply loop_escapes_unhandled in L. }
    destruct e; try discriminate U.
    + repeat split; try (intros; discriminate); auto.
      * intros [_ [n H]]. discriminate H.
      * intros [_ [m H]]. discriminate H.
    + repeat split; try (intros; discriminate); auto.
      * intros [_ [n H]]. discriminate H.
      * intros [H|H]; discriminate H.
      * now exists msg.
Qed.

(** X14. A sweep that is not a dry run never returns more than the dry run
    on the same snapshot: when it returns, the dry run returns as well, and
    the count of the dry run is at least its count. *)
Theorem dry_run_is_an_upper_bound (verb verb' : bool) (procs : list Process)
  (n : Z) :
  fst (kill_browser_processes_only (mkKiller false verb) procs) = Return n ->
  exists m,
    fst (kill_browser_processes_only (mkKiller true verb') procs) = Return m
    /\ n <= m.
Proof.
  intros H. exists (count is_target procs).
  apply sweep_returns in H as [E ->]. split.
  - apply dry_run_returns. exact (completed_all_named _ _ E).
  - apply count_le, counts_target.
Qed.

Lemma dry_run_is_an_upper_bound_witness :
  exists m,
    fst (kill_browser_processes_only (mkKiller true false)
           [chrome_ok; chrome_stuck; chrome_gone]) = Return m
    /\ 1 <= m.
Proof.
  apply (dry_run_is_an_upper_bound true false
           [chrome_ok; chrome_stuck; chrome_gone] 1).
  reflexivity.
Defined.

(** The method from any state. *)
Lemma sweep_M_spec (self : BrowserProcessKiller) (procs : list Process)
  (s : State) :
  kill_browser_processes_only_M self procs s
  = match loop_escapes self procs with
    | None =>
        (Return (loop_count self procs),
         mkState (loop_count self procs)
           (trace s ++ loop_events self procs
            ++ [Print (SummaryLine (loop_count self procs))]))
    | Some e =>
        (Raise e,
         mkState (loop_count self procs) (trace s ++ loop_events self procs))
    end.
Proof.
  unfold kill_browser_processes_only_M, bind, set_count, get_count, print,
    emit, ret.
  rewrite for_each_process_spec. cbn [killed_count trace].
  destruct (loop_escapes self procs); cbn [killed_count trace];
    now rewrite <- ?List.app_assoc.
Qed.

(** X15. The count is per call.  Whatever the state the method is called in
    (whatever count an earlier call left, whatever was done before), it
    returns or raises what it does from the start, and it adds what it does to
    what was done before: counts of successive sweeps do not add up. *)
Theorem count_is_per_call (self : BrowserProcessKiller)
  (procs : list Process) (s : State) :
  fst (kill_browser_processes_only_M self procs s)
  = fst (kill_browser_processes_only self procs)
  /\ trace (snd (kill_browser_processes_only_M self procs s))
     = (trace s ++ snd (kill_browser_processes_only self procs))%list
  /\ forall other,
       fst ((kill_browser_processes_only_M self other ;;
             kill_browser_processes_only_M self procs) s)
       = match fst (kill_browser_processes_only self other) with
         | Return _ => fst (kill_browser_processes_only self procs)
         | Raise e => Raise e
         end.
Proof.
  assert (A : forall l s0, fst (kill_browser_processes_only_M self l s0)
                           = fst (kill_browser_processes_only self l)).
  { intros l s0. rewrite sweep_M_spec, sweep_spec.
    now destruct (loop_escapes self l). }
  repeat split.
  - apply A.
  - rewrite sweep_M_spec, sweep_spec.
    now destruct (loop_escapes self procs).
  - intros other. unfold bind. rewrite <- (A other s).
    destruct (kill_browser_processes_only_M self other s) as [[n|e] s'];
      cbn [fst]; [apply A | reflexivity].
Qed.

(** ** What the [except] clauses and the [or []] of line 35 do recover *)

(** X16. A condition the [except] clauses name (the process vanished, access
    was denied, it is a zombie, the wait timed out), raised inside the [try]
    block for a process, is recovered on the spot: the [try] statement for
    this process ends normally and leaves the count as it was; the sweep gives
    what it would give on the snapshot without this process, so whatever
    follows is handled as if the process had not been there; and no sweep
    ever raises such a condition. *)
Theorem handled_conditions_recovered (self : BrowserProcessKiller)
  (l1 l2 : list Process) (p : Process) (e : exn)
  (Hraised : raised_in_try self p = Some e)
  (Hhandled : handled e = true) :
  (forall s, fst (try_statement self p s) = Return tt
             /\ killed_count (snd (try_statement self p s)) = killed_count s)
  /\ fst (kill_browser_processes_only self (l1 ++ p :: l2))
     = fst (kill_browser_processes_only self (l1 ++ l2))
  /\ (forall procs e',
        handled e' = true ->
        fst (kill_browser_processes_only self procs) <> Raise e').
Proof.
  assert (E : escapes self p = None).
  { unfold escapes. now rewrite Hraised, Hhandled. }
  assert (C : counts self p = false).
  { unfold counts. rewrite Hraised. apply andb_false_r. }
  split; [|split].
  - intros s. rewrite try_statement_spec, E, C. cbn [fst snd killed_count].
    split; [reflexivity | lia].
  - rewrite !sweep_result.
    destruct (loop_skip self l1 l2 p E C) as [-> ->]. reflexivity.
  - intros procs e' H' R. rewrite sweep_result in R.
    destruct (loop_escapes self procs) as [x|] eqn:L; [|discriminate R].
    injection R as ->. apply loop_escapes_unhandled in L. congruence.
Qed.

Lemma handled_conditions_recovered_witness :
  fst (kill_browser_processes_only (mkKiller false true)
         ([chrome_ok; chrome_stuck] ++ chrome_denied :: [node_server; chrome_ok]))
  = fst (kill_browser_processes_only (mkKiller false true)
           ([chrome_ok; chrome_stuck] ++ [node_server; chrome_ok])).
Proof.
  apply (proj1 (proj2 (handled_conditions_recovered (mkKiller false true)
                         [chrome_ok; chrome_stuck] [node_server; chrome_ok]
                         chrome_denied AccessDenied eq_refl eq_refl))).
Defined.

(** X17. A record that has a name and whose argument vector is unavailable
    ([None]) or empty has the empty string for command line; no marker occurs
    in it, so the record is classified Ignored; no sweep calls [kill()] on it;
    the [try] statement for it returns at once and changes nothing; and a
    sweep over a snapshot that holds it does and returns what it would
    without it. *)
Theorem named_record_without_cmdline_is_ignored (p : Process)
  (Hname : has_name p = true)
  (Hargv : cmdline p = None \/ cmdline p = Some []) :
  cmdline_text (cmdline p) = ""
  /\ classification p = Return Ignored
  /\ (forall self procs,
        ~ In p (kill_calls (snd (kill_browser_processes_only self procs))))
  /\ (forall self s, try_statement self p s = (Return tt, s))
  /\ (forall self l1 l2,
        kill_browser_processes_only self (l1 ++ p :: l2)
        = kill_browser_processes_only self (l1 ++ l2)).
Proof.
  assert (T : cmdline_text (cmdline p) = "")
    by (destruct Hargv as [-> | ->]; reflexivity).
  assert (C : classification p = Return Ignored).
  { unfold classification, classify, is_playwright_chrome. rewrite T.
    unfold has_name in Hname. destruct (name p); [|discriminate Hname].
    change ("mcp-chrome-profile" in_ "") with false.
    now rewrite andb_false_r. }
  assert (N : is_target p = false) by (unfold is_target; now rewrite C).
  split; [exact T|]. split; [exact C|]. split; [|split].
  - intros self procs H.
    apply sweep_kills_targets_only in H as (_ & _ & H). congruence.
  - intros self s. now apply ignored_is_skipped.
  - intros self l1 l2.
    unfold kill_browser_processes_only, kill_browser_processes_only_M, bind.
    destruct (set_count 0 initial) as [[[]|e] s0]; [|reflexivity].
    now rewrite for_each_process_ignores.
Qed.

Lemma named_record_without_cmdline_is_ignored_witness :
  cmdline_text (cmdline no_argv) = ""
  /\ classification no_argv = Return Ignored
  /\ (forall self procs,
        ~ In no_argv
             (kill_calls (snd (kill_browser_processes_only self procs))))
  /\ (forall self s, try_statement self no_argv s = (Return tt, s))
  /\ (forall self l1 l2,
        kill_browser_processes_only self (l1 ++ no_argv :: l2)
        = kill_browser_processes_only self (l1 ++ l2)).
Proof.
  apply (named_record_without_cmdline_is_ignored no_argv);
    [reflexivity | left; reflexivity].
Defined.
